(** * Qoder reset tool: a shallow embedding of [qoder_reset_gui.py]

    The program resets identity-linked files of a desktop application:
    it probes for a running process, asks the operator for confirmation
    and then rewrites or removes files under the per-user data directory.

    The embedding keeps the program's shape: Python [str] values are
    [string]s of bytes, the dictionary read from [storage.json] is an
    insertion-ordered association list, the file system is a finite map
    from relative paths to nodes, and every method of the window class is
    a computation in a small state/exception/writer monad whose trace
    records log lines, dialogs and primitive file mutations. *)

From Stdlib Require Import ZArith Ascii String List Bool Lia.
From stdpp Require Import base option list gmap strings pretty.
Import ListNotations.

Local Open Scope string_scope.
Local Open Scope Z_scope.

(** ** Python string primitives *)

(** [str.lower] on the ASCII range. Non-ASCII text is carried as UTF-8
    bytes, which [lower_char] leaves alone; none of the four keywords
    matched by the program can arise from lowering a non-ASCII letter. *)
Definition lower_char (c : ascii) : ascii :=
  let n := nat_of_ascii c in
  if (65 <=? n)%nat && (n <=? 90)%nat then ascii_of_nat (n + 32) else c.

Fixpoint lower (s : string) : string :=
  match s with
  | EmptyString => EmptyString
  | String c s' => String (lower_char c) (lower s')
  end.

Fixpoint startswith (s p : string) : bool :=
  match p, s with
  | EmptyString, _ => true
  | String _ _, EmptyString => false
  | String a p', String b s' => if Ascii.eqb a b then startswith s' p' else false
  end.

(** [py_in needle hay] is Python's [needle in hay] on strings. *)
Fixpoint py_in (needle hay : string) : bool :=
  match hay with
  | EmptyString => startswith EmptyString needle
  | String _ hay' => startswith hay needle || py_in needle hay'
  end.

(** ASCII white space as [str.isspace] sees it. *)
Definition is_space (c : ascii) : bool :=
  let n := nat_of_ascii c in
  ((9 <=? n)%nat && (n <=? 13)%nat) || ((28 <=? n)%nat && (n <=? 32)%nat).

Fixpoint lstrip (s : string) : string :=
  match s with
  | EmptyString => EmptyString
  | String c s' => if is_space c then lstrip s' else s
  end.

(** [rstrip] drops a character when it is white space and everything
    after it has been dropped too. *)
Fixpoint rstrip (s : string) : string :=
  match s with
  | EmptyString => EmptyString
  | String c s' =>
      match rstrip s' with
      | EmptyString => if is_space c then EmptyString else String c EmptyString
      | r => String c r
      end
  end.

Definition strip (s : string) : string := rstrip (lstrip s).

(** [s.split(sep)] for a one-character separator: empty fields are kept,
    so the result is never empty. *)
Fixpoint split_on (sep : ascii) (s : string) : list string :=
  match s with
  | EmptyString => [EmptyString]
  | String c s' =>
      if Ascii.eqb c sep then EmptyString :: split_on sep s'
      else match split_on sep s' with
           | [] => [String c EmptyString]
           | w :: ws => String c w :: ws
           end
  end.

(** [s.split()]: fields separated by runs of white space, none empty. *)
Fixpoint split_ws_aux (cur : string) (s : string) : list string :=
  match s with
  | EmptyString => match cur with EmptyString => [] | _ => [cur] end
  | String c s' =>
      if is_space c
      then match cur with
           | EmptyString => split_ws_aux EmptyString s'
           | _ => cur :: split_ws_aux EmptyString s'
           end
      else split_ws_aux (cur ++ String c EmptyString) s'
  end.

Definition split_ws (s : string) : list string := split_ws_aux EmptyString s.

(** [sep.join(l)] *)
Fixpoint join (sep : string) (l : list string) : string :=
  match l with
  | [] => EmptyString
  | [x] => x
  | x :: rest => x ++ sep ++ join sep rest
  end.

Definition newline : ascii := ascii_of_nat 10.

(** ** Exceptions and outcomes *)

Inductive exn : Type :=
  | ImportError
  | AttributeError
  | TypeError
  | KeyError
  | NoSuchProcess
  | AccessDenied
  | FileNotFoundError
  | PermissionError
  | IsADirectoryError
  | NotADirectoryError
  | JSONDecodeError
  | OSError
  | AppError (msg : string).

Inductive outcome (A : Type) : Type :=
  | Ok (a : A)
  | Raise (e : exn).
Arguments Ok {A} a.
Arguments Raise {A} e.

(** ** The process probe: [check_process_running] *)

Inductive system_name : Type := Darwin | Linux | Windows | OtherSystem.

(** What [subprocess.run(..., capture_output=True, text=True)] hands back. *)
Record completed_process : Type := Completed {
  returncode : Z;
  stdout : string
}.

(** One entry produced by [psutil.process_iter(['pid', 'name'])]. The
    [info] dictionary holds [None] for an attribute the library could not
    read; [ProcRaises] is an entry whose inspection raises. *)
Inductive proc_entry : Type :=
  | ProcInfo (pid : N) (name : option string)
  | ProcRaises (e : exn).

Inductive psutil_module : Type :=
  | PsutilMissing
  | PsutilProcs (procs : list proc_entry).

(** Everything outside the program that one probe depends on. *)
Record probe_env : Type := ProbeEnv {
  system : system_name;
  subprocess_run : list string -> outcome completed_process;
  psutil : psutil_module
}.

(** The [for line in lines] loop of the Windows branch. *)
Fixpoint tasklist_pids (process_name : string) (lines : list string) : list string :=
  match lines with
  | [] => []
  | line :: rest =>
      if py_in (lower process_name) (lower line)
      then match split_ws line with
           | _ :: pid :: _ => pid :: tasklist_pids process_name rest
           | _ => tasklist_pids process_name rest
           end
      else tasklist_pids process_name rest
  end.

(** The body of the outer [try]: [Ok (Some r)] is a [return r] from inside
    it, [Ok None] falls through to the final [return False, []]. *)
Definition native_probe (env : probe_env) (process_name : string)
  : outcome (option (bool * list string)) :=
  match system env with
  | Darwin | Linux =>
      match subprocess_run env ["pgrep"; "-f"; process_name] with
      | Raise e => Raise e
      | Ok result =>
          if returncode result =? 0
          then Ok (Some (true, split_on newline (strip (stdout result))))
          else Ok None
      end
  | Windows =>
      match subprocess_run env
              ["tasklist"; "/FI"; "IMAGENAME eq " ++ process_name ++ "*"] with
      | Raise e => Raise e
      | Ok result =>
          if (returncode result =? 0)
             && py_in (lower process_name) (lower (stdout result))
          then Ok (Some (true,
                 tasklist_pids process_name
                   (split_on newline (strip (stdout result)))))
          else Ok None
      end
  | OtherSystem => Ok None
  end.

(** The [for proc in psutil.process_iter(...)] loop. Only
    [NoSuchProcess] and [AccessDenied] are caught per entry; a [None] name
    has no [lower] method. *)
Fixpoint psutil_scan (process_name : string) (procs : list proc_entry)
  : outcome (list string) :=
  match procs with
  | [] => Ok []
  | ProcRaises NoSuchProcess :: rest => psutil_scan process_name rest
  | ProcRaises AccessDenied :: rest => psutil_scan process_name rest
  | ProcRaises e :: _ => Raise e
  | ProcInfo _ None :: _ => Raise AttributeError
  | ProcInfo pid (Some name) :: rest =>
      match psutil_scan process_name rest with
      | Raise e => Raise e
      | Ok pids =>
          if py_in (lower process_name) (lower name)
          then Ok (pretty pid :: pids)
          else Ok pids
      end
  end.

(** The handler of the outer [except Exception]: the inner [try] catches
    [ImportError] alone. [Ok None] again falls through. *)
Definition psutil_fallback (env : probe_env) (process_name : string)
  : outcome (option (bool * list string)) :=
  match psutil env with
  | PsutilMissing => Ok None
  | PsutilProcs procs =>
      match psutil_scan process_name procs with
      | Raise ImportError => Ok None
      | Raise e => Raise e
      | Ok [] => Ok None
      | Ok pids => Ok (Some (true, pids))
      end
  end.

Definition check_process_running (env : probe_env) (process_name : string)
  : outcome (bool * list string) :=
  let attempt :=
    match native_probe env process_name with
    | Raise _ => psutil_fallback env process_name
    | r => r
    end in
  match attempt with
  | Raise e => Raise e
  | Ok (Some r) => Ok r
  | Ok None => Ok (false, [])
  end.

(** ** Hexadecimal rendering and UUIDs ([uuid.uuid4], [str(UUID)]) *)

Definition hexdigit (d : Z) : ascii :=
  match d with
  | 0 => "0" | 1 => "1" | 2 => "2" | 3 => "3" | 4 => "4" | 5 => "5"
  | 6 => "6" | 7 => "7" | 8 => "8" | 9 => "9" | 10 => "a" | 11 => "b"
  | 12 => "c" | 13 => "d" | 14 => "e" | _ => "f"
  end%char.

(** ['%0<width>x' % n] for [0 <= n < 16 ^ width]: the [width] low nibbles
    of [n], most significant first. *)
Fixpoint hex_fixed (width : nat) (n : Z) : string :=
  match width with
  | O => EmptyString
  | S w => String (hexdigit (Z.land (Z.shiftr n (4 * Z.of_nat w)) 15)) (hex_fixed w n)
  end.

(** [s[i:]] *)
Fixpoint str_from (i : nat) (s : string) : string :=
  match i, s with
  | O, _ => s
  | S _, EmptyString => EmptyString
  | S i', String _ s' => str_from i' s'
  end.

(** [UUID(bytes=..., version=4)] on the integer read from the sixteen
    random bytes: the variant bits become [10], the version nibble [4]. *)
Definition uuid4_of (r : Z) : Z :=
  let i := Z.land r (Z.lnot (Z.shiftl 0xc000 48)) in
  let i := Z.lor i (Z.shiftl 0x8000 48) in
  let i := Z.land i (Z.lnot (Z.shiftl 0xf000 64)) in
  Z.lor i (Z.shiftl 4 76).

(** [UUID.__str__] *)
Definition uuid_str (u : Z) : string :=
  let hex := hex_fixed 32 u in
  substring 0 8 hex ++ "-" ++ substring 8 4 hex ++ "-" ++ substring 12 4 hex
    ++ "-" ++ substring 16 4 hex ++ "-" ++ str_from 20 hex.

Definition is_lower_hex (c : ascii) : bool :=
  let n := nat_of_ascii c in
  ((48 <=? n)%nat && (n <=? 57)%nat) || ((97 <=? n)%nat && (n <=? 102)%nat).

(** Syntactic validity of the canonical textual form: thirty-six
    characters, hyphens at offsets 8, 13, 18 and 23, hexadecimal digits
    elsewhere. [is_uuid4_string] also asks for the version-4 nibble. *)
Fixpoint uuid_shape (i : nat) (s : string) : bool :=
  match s with
  | EmptyString => (i =? 36)%nat
  | String c s' =>
      (if (i =? 8)%nat || (i =? 13)%nat || (i =? 18)%nat || (i =? 23)%nat
       then Ascii.eqb c "-" else is_lower_hex c)
      && uuid_shape (S i) s'
  end.

Definition is_uuid_string (s : string) : bool := uuid_shape 0 s.

Definition is_uuid4_string (s : string) : bool :=
  is_uuid_string s && String.eqb (substring 14 1 s) "4".

(** ** SHA-256 ([hashlib.sha256(...).hexdigest()]), after FIPS 180-4 *)

Module SHA256.

Definition w32 (x : Z) : Z := Z.land x 0xffffffff.
Definition add32 (x y : Z) : Z := w32 (x + y).
Definition rotr (n x : Z) : Z := Z.lor (Z.shiftr x n) (w32 (Z.shiftl x (32 - n))).
Definition not32 (x : Z) : Z := Z.lxor x 0xffffffff.

Definition Ch (x y z : Z) : Z := Z.lxor (Z.land x y) (Z.land (not32 x) z).
Definition Maj (x y z : Z) : Z :=
  Z.lxor (Z.lxor (Z.land x y) (Z.land x z)) (Z.land y z).
Definition bsig0 (x : Z) : Z := Z.lxor (Z.lxor (rotr 2 x) (rotr 13 x)) (rotr 22 x).
Definition bsig1 (x : Z) : Z := Z.lxor (Z.lxor (rotr 6 x) (rotr 11 x)) (rotr 25 x).
Definition ssig0 (x : Z) : Z := Z.lxor (Z.lxor (rotr 7 x) (rotr 18 x)) (Z.shiftr x 3).
Definition ssig1 (x : Z) : Z := Z.lxor (Z.lxor (rotr 17 x) (rotr 19 x)) (Z.shiftr x 10).

(** The constants are derived as the standard defines them, from the
    first sixty-four primes: the fractional part of a root of [p], to
    thirty-two bits, is the root of [p] scaled by a power of two and
    truncated. *)
Definition is_prime (n : nat) : bool :=
  forallb (fun d => negb (n mod d =? 0)%nat) (seq 2 (n - 2)).

Definition primes : list Z :=
  map Z.of_nat (firstn 64 (List.filter is_prime (seq 2 310))).

(** The integer cube root, built bit by bit from the top. *)
Fixpoint cube_root_bits (bits : nat) (n acc : Z) : Z :=
  match bits with
  | O => acc
  | S bits' =>
      let next := acc + 2 ^ Z.of_nat bits' in
      cube_root_bits bits' n (if next * next * next <=? n then next else acc)
  end.

Definition K : list Z :=
  Eval vm_compute in
    map (fun p => w32 (cube_root_bits 36 (p * 2 ^ 96) 0)) primes.

(** The eight working words. *)
Record regs : Type := Regs {
  ra : Z; rb : Z; rc : Z; rd : Z; re : Z; rf : Z; rg : Z; rh : Z
}.

Definition root_word (p : Z) : Z := w32 (Z.sqrt (p * 2 ^ 64)).

Definition H0 : regs :=
  Eval vm_compute in
    Regs (root_word 2) (root_word 3) (root_word 5) (root_word 7)
         (root_word 11) (root_word 13) (root_word 17) (root_word 19).

(** Message padding: a [1] bit, zeros up to 56 mod 64 bytes, then the
    bit length on eight bytes, big-endian. *)
Definition be_bytes (count : nat) (x : Z) : list Z :=
  map (fun i => Z.land (Z.shiftr x (8 * Z.of_nat (count - 1 - i))) 0xff) (seq 0 count).

Definition pad (msg : list Z) : list Z :=
  let len := Z.of_nat (length msg) in
  msg ++ [0x80] ++ repeat 0 (Z.to_nat ((55 - len) mod 64)) ++ be_bytes 8 (8 * len).

Fixpoint words_of_bytes (bs : list Z) : list Z :=
  match bs with
  | a :: b :: c :: d :: rest =>
      Z.lor (Z.lor (Z.lor (Z.shiftl a 24) (Z.shiftl b 16)) (Z.shiftl c 8)) d
        :: words_of_bytes rest
  | _ => []
  end.

(** The message schedule, newest word first while it is being built. *)
Fixpoint extend (count : nat) (rw : list Z) : list Z :=
  match count with
  | O => rw
  | S count' =>
      let wt := add32 (add32 (ssig1 (nth 1 rw 0)) (nth 6 rw 0))
                      (add32 (ssig0 (nth 14 rw 0)) (nth 15 rw 0)) in
      extend count' (wt :: rw)
  end.

Definition schedule (block : list Z) : list Z := rev (extend 48 (rev block)).

Definition round (s : regs) (kw : Z * Z) : regs :=
  let t1 := add32 (add32 (add32 (rh s) (bsig1 (re s)))
                         (add32 (Ch (re s) (rf s) (rg s)) (fst kw))) (snd kw) in
  let t2 := add32 (bsig0 (ra s)) (Maj (ra s) (rb s) (rc s)) in
  Regs (add32 t1 t2) (ra s) (rb s) (rc s) (add32 (rd s) t1) (re s) (rf s) (rg s).

Definition compress (h : regs) (block : list Z) : regs :=
  let s := fold_left round (combine K (schedule block)) h in
  Regs (add32 (ra h) (ra s)) (add32 (rb h) (rb s)) (add32 (rc h) (rc s))
       (add32 (rd h) (rd s)) (add32 (re h) (re s)) (add32 (rf h) (rf s))
       (add32 (rg h) (rg s)) (add32 (rh h) (rh s)).

Fixpoint blocks (count : nat) (ws : list Z) (h : regs) : regs :=
  match count with
  | O => h
  | S count' => blocks count' (skipn 16 ws) (compress h (firstn 16 ws))
  end.

Definition digest (msg : list Z) : regs :=
  let ws := words_of_bytes (pad msg) in
  blocks (length ws / 16) ws H0.

Definition bytes_of_string (s : string) : list Z :=
  map (fun c => Z.of_nat (nat_of_ascii c)) (list_ascii_of_string s).

Definition hexdigest (s : string) : string :=
  let d := digest (bytes_of_string s) in
  hex_fixed 8 (ra d) ++ hex_fixed 8 (rb d) ++ hex_fixed 8 (rc d)
    ++ hex_fixed 8 (rd d) ++ hex_fixed 8 (re d) ++ hex_fixed 8 (rf d)
    ++ hex_fixed 8 (rg d) ++ hex_fixed 8 (rh d).

End SHA256.

(** ** JSON values and the dictionary read from [storage.json] *)

(** A decoded JSON document. A float is kept by its [repr], an object as
    the insertion-ordered item list of a Python [dict]. *)
#[warnings="-register-all"]
Inductive json : Type :=
  | JNull
  | JBool (b : bool)
  | JInt (z : Z)
  | JFloat (repr : string)
  | JStr (s : string)
  | JList (items : list json)
  | JDict (items : list (string * json)).

Abbreviation dict := (list (string * json)).

(** [d.get(k)] *)
Fixpoint dict_get (k : string) (d : dict) : option json :=
  match d with
  | [] => None
  | (k', v') :: rest => if String.eqb k k' then Some v' else dict_get k rest
  end.

(** [d[k] = v]: an existing key keeps its place, a new key goes last. *)
Fixpoint dict_set (k : string) (v : json) (d : dict) : dict :=
  match d with
  | [] => [(k, v)]
  | (k', v') :: rest =>
      if String.eqb k k' then (k, v) :: rest else (k', v') :: dict_set k v rest
  end.

(** [del d[k]]: [None] stands for [KeyError]. *)
Fixpoint dict_del (k : string) (d : dict) : option dict :=
  match d with
  | [] => None
  | (k', v') :: rest =>
      if String.eqb k k' then Some rest
      else match dict_del k rest with
           | None => None
           | Some rest' => Some ((k', v') :: rest')
           end
  end.

Definition dict_keys (d : dict) : list string := map fst d.

(** ** The data directory *)

(** A path is the list of its components below the data directory
    returned by [get_qoder_data_dir]; the directory itself is [[]]. *)
Abbreviation path := (list string).

(** The content of a regular file, in the form the program reads it:
    [Json j] is any text that [json.load] decodes to [j] (what
    [json.dump j] writes is such a text), [Text s] is text that is not a
    JSON document. *)
Inductive content : Type :=
  | Text (s : string)
  | Json (j : json).

Inductive node : Type :=
  | File (c : content)
  | Dir.

Inductive access : Type := ARead | AWrite | ARemove | AList.

Inductive box_kind : Type := Information | Warning | Critical.

(** What an operation leaves behind, in order: lines of the on-screen
    log, dialogs, and the primitive mutations of the file system. *)
Inductive event : Type :=
  | Log (msg : string)
  | MsgBox (kind : box_kind) (title text : string)
  | Question (title text : string) (answer : bool)
  | Written (p : path) (c : content)
  | Unlinked (p : path)
  | TreeRemoved (p : path).

Definition is_mutation (e : event) : bool :=
  match e with
  | Written _ _ | Unlinked _ | TreeRemoved _ => true
  | _ => false
  end.

Definition mutations (evs : list event) : list event := List.filter is_mutation evs.

(** The surroundings of one operation: which accesses the operating
    system refuses, what each successive process probe finds, what the
    operator answers to each successive question ([true] is Yes), the
    sixteen-byte blocks [os.urandom] returns, and the state of the
    "preserve chat" check box. *)
Record environment : Type := Environment {
  deny : access -> path -> bool;
  probes : nat -> probe_env;
  replies : nat -> bool;
  urandom : nat -> Z;
  preserve_chat_checked : bool
}.

Record state : Type := State {
  fs : gmap path node;
  probed : nat;
  asked : nat;
  drawn : nat
}.

Definition set_fs (f : gmap path node) (st : state) : state :=
  State f (probed st) (asked st) (drawn st).

(** ** The monad of operations *)

Definition M (A : Type) : Type := environment -> state -> outcome A * state * list event.

Definition ret {A} (a : A) : M A := fun _ st => (Ok a, st, []).

Definition bind {A B} (m : M A) (k : A -> M B) : M B :=
  fun env st =>
    match m env st with
    | (Ok a, st1, ev1) =>
        match k a env st1 with
        | (r, st2, ev2) => (r, st2, (ev1 ++ ev2)%list)
        end
    | (Raise e, st1, ev1) => (Raise e, st1, ev1)
    end.

Definition raise {A} (e : exn) : M A := fun _ st => (Raise e, st, []).

(** [try: body / except Exception as e: handler e] *)
Definition try_except {A} (body : M A) (handler : exn -> M A) : M A :=
  fun env st =>
    match body env st with
    | (Raise e, st1, ev1) =>
        match handler e env st1 with
        | (r, st2, ev2) => (r, st2, (ev1 ++ ev2)%list)
        end
    | r => r
    end.

Declare Scope monad_scope.
Delimit Scope monad_scope with monad.
Bind Scope monad_scope with M.
Notation "x <- m ;; k" := (bind m (fun x => k))
  (at level 100, m at next level, right associativity) : monad_scope.
Notation "m ;; k" := (bind m (fun _ => k))
  (at level 100, k at level 200, right associativity) : monad_scope.
Local Open Scope monad_scope.

Definition emit (e : event) : M unit := fun _ st => (Ok tt, st, [e]).
Definition log (msg : string) : M unit := emit (Log msg).
Definition msgbox (kind : box_kind) (title text : string) : M unit :=
  emit (MsgBox kind title text).

(** *** Primitive actions *)

(** [self.check_qoder_running()]: the next probe of the environment. *)
Definition check_qoder_running : M (bool * list string) :=
  fun env st =>
    (check_process_running (probes env (probed st)) "Qoder",
     State (fs st) (S (probed st)) (asked st) (drawn st), []).

(** [QMessageBox.question(...) == QMessageBox.Yes] *)
Definition question (title text : string) : M bool :=
  fun env st =>
    let answer := replies env (asked st) in
    (Ok answer, State (fs st) (probed st) (S (asked st)) (drawn st),
     [Question title text answer]).

(** [uuid.uuid4()]: sixteen fresh random bytes read as one integer. *)
Definition uuid4 : M Z :=
  fun env st =>
    (Ok (uuid4_of (urandom env (drawn st) mod 2 ^ 128)),
     State (fs st) (probed st) (asked st) (S (drawn st)), []).

Definition isChecked : M bool := fun env st => (Ok (preserve_chat_checked env), st, []).

(** [p.exists()] and [p.is_dir()] *)
Definition path_exists (p : path) : M bool :=
  fun _ st => (Ok (match fs st !! p with Some _ => true | None => false end), st, []).

Definition is_dir (p : path) : M bool :=
  fun _ st => (Ok (match fs st !! p with Some Dir => true | _ => false end), st, []).

(** [p.unlink()] *)
Definition unlink (p : path) : M unit :=
  fun env st =>
    match fs st !! p with
    | None => (Raise FileNotFoundError, st, [])
    | Some Dir => (Raise IsADirectoryError, st, [])
    | Some (File _) =>
        if deny env ARemove p then (Raise PermissionError, st, [])
        else (Ok tt, set_fs (delete p (fs st)) st, [Unlinked p])
    end.

(** [shutil.rmtree(p)]: the directory goes with everything below it. A
    removal the system refuses leaves the tree as it was. *)
Definition rmtree (p : path) : M unit :=
  fun env st =>
    match fs st !! p with
    | None => (Raise FileNotFoundError, st, [])
    | Some (File _) => (Raise NotADirectoryError, st, [])
    | Some Dir =>
        if deny env ARemove p then (Raise PermissionError, st, [])
        else (Ok tt,
              set_fs (filter (λ kv : path * node, ¬ p `prefix_of` kv.1) (fs st)) st,
              [TreeRemoved p])
    end.

(** [with open(p, 'r') as f: json.load(f)] *)
Definition read_json (p : path) : M json :=
  fun env st =>
    match fs st !! p with
    | None => (Raise FileNotFoundError, st, [])
    | Some Dir => (Raise IsADirectoryError, st, [])
    | Some (File c) =>
        if deny env ARead p then (Raise PermissionError, st, [])
        else match c with
             | Json j => (Ok j, st, [])
             | Text _ => (Raise JSONDecodeError, st, [])
             end
    end.

(** [with open(p, 'w') as f: f.write(...)] or [json.dump(..., f)]: the
    new content replaces the old one; a missing file is created when its
    directory is there. *)
Definition write_file (p : path) (c : content) : M unit :=
  fun env st =>
    let go := if deny env AWrite p then (Raise PermissionError, st, [])
              else (Ok tt, set_fs (<[p := File c]> (fs st)) st, [Written p c]) in
    match fs st !! p with
    | Some Dir => (Raise IsADirectoryError, st, [])
    | Some (File _) => go
    | None =>
        match p, fs st !! removelast p with
        | _ :: _, Some Dir => go
        | _, _ => (Raise FileNotFoundError, st, [])
        end
    end.

Definition is_child_of (p q : path) : bool :=
  bool_decide (p `prefix_of` q) && (length q =? S (length p))%nat.

(** [p.iterdir()], in the order the map enumerates its keys. *)
Definition iterdir (p : path) : M (list path) :=
  fun env st =>
    match fs st !! p with
    | None => (Raise FileNotFoundError, st, [])
    | Some (File _) => (Raise NotADirectoryError, st, [])
    | Some Dir =>
        if deny env AList p then (Raise PermissionError, st, [])
        else (Ok (List.filter (is_child_of p) (map_to_list (fs st)).*1), st, [])
    end.

Definition endswith (s suffix : string) : bool :=
  (String.length suffix <=? String.length s)%nat
  && String.eqb (str_from (String.length s - String.length suffix) s) suffix.

(** [glob.glob(str(qoder_support_dir / "*.sock"))]: the entries directly
    under the data directory whose name ends in [.sock]; a leading dot
    hides a name from [*]. *)
Definition is_sock (q : path) : bool :=
  match q with
  | [name] => endswith name ".sock" && negb (startswith name ".")
  | _ => false
  end.

Definition glob_sock : M (list path) :=
  fun _ st => (Ok (List.filter is_sock (map_to_list (fs st)).*1), st, []).

(** [str(e)] for a caught exception: the message of the program's own
    [Exception(...)], the class name for a system error. *)
Definition exn_text (e : exn) : string :=
  match e with
  | AppError msg => msg
  | ImportError => "ImportError"
  | AttributeError => "AttributeError"
  | TypeError => "TypeError"
  | KeyError => "KeyError"
  | NoSuchProcess => "NoSuchProcess"
  | AccessDenied => "AccessDenied"
  | FileNotFoundError => "FileNotFoundError"
  | PermissionError => "PermissionError"
  | IsADirectoryError => "IsADirectoryError"
  | NotADirectoryError => "NotADirectoryError"
  | JSONDecodeError => "JSONDecodeError"
  | OSError => "OSError"
  end.

(** [path.relative_to(qoder_support_dir)] as text. *)
Definition path_text (p : path) : string := join "/" p.

Definition rule (n : nat) : string := string_of_list_ascii (repeat "="%char n).

(** *** Well-known places *)

Definition qoder_support_dir : path := [].
Definition machine_id_file : path := ["machineid"].
Definition storage_json_file : path := ["User"; "globalStorage"; "storage.json"].
Definition network_dir : path := ["Network"].
Definition shared_cache : path := ["SharedClientCache"].
Definition data_dir_missing : exn := AppError "未找到 Qoder 应用数据目录".

(** ** Identifier generation *)

(** Lines [new_uuid = str(uuid.uuid4())] and
    [machine_id_hash = hashlib.sha256(new_uuid.encode()).hexdigest()] of
    [reset_telemetry] and [perform_full_reset]. *)
Definition machine_id_hash_of (u : Z) : string := SHA256.hexdigest (uuid_str u).

Definition generate_machine_id_hash : M string :=
  u <- uuid4 ;; ret (machine_id_hash_of u).

(** Line [device_id = str(uuid.uuid4())]. *)
Definition generate_device_id : M string :=
  u <- uuid4 ;; ret (uuid_str u).

(** [data[k] = v] on whatever [json.load] returned: only a dictionary
    takes a string key. *)
Definition set_item (data : json) (k : string) (v : json) : M json :=
  match data with
  | JDict d => ret (JDict (dict_set k v d))
  | _ => raise TypeError
  end.

(** The read-modify-write shared by [reset_telemetry] and step 2 of
    [perform_full_reset]. It returns the two new identifiers. *)
Definition rewrite_telemetry : M (string * string) :=
  data <- read_json storage_json_file ;;
  machine_id_hash <- generate_machine_id_hash ;;
  device_id <- generate_device_id ;;
  data <- set_item data "telemetry.machineId" (JStr machine_id_hash) ;;
  data <- set_item data "telemetry.devDeviceId" (JStr device_id) ;;
  write_file storage_json_file (Json data) ;;
  ret (machine_id_hash, device_id).

(** ** Standalone operations *)

Definition reset_machine_id : M unit :=
  log "开始重置机器ID..." ;;
  r <- check_qoder_running ;;
  if fst r then
    log "错误: Qoder 正在运行，请先关闭" ;;
    msgbox Critical "错误" "请先关闭 Qoder 应用程序"
  else
    try_except
      (found <- path_exists qoder_support_dir ;;
       if negb found then raise data_dir_missing
       else
         present <- path_exists machine_id_file ;;
         if present then
           u <- uuid4 ;;
           let new_machine_id := uuid_str u in
           write_file machine_id_file (Text new_machine_id) ;;
           log ("机器ID已重置为: " ++ new_machine_id) ;;
           msgbox Information "成功" "机器ID重置完成"
         else
           log "未找到机器ID文件" ;;
           msgbox Warning "警告" "未找到机器ID文件")
      (fun e =>
         log ("重置机器ID失败: " ++ exn_text e) ;;
         msgbox Critical "错误" ("重置机器ID失败: " ++ exn_text e)).

Definition reset_telemetry : M unit :=
  log "开始重置遥测数据..." ;;
  r <- check_qoder_running ;;
  if fst r then
    log "错误: Qoder 正在运行，请先关闭" ;;
    msgbox Critical "错误" "请先关闭 Qoder 应用程序"
  else
    try_except
      (present <- path_exists storage_json_file ;;
       if negb present then raise (AppError "未找到遥测数据文件")
       else
         ids <- rewrite_telemetry ;;
         log "遥测数据已重置" ;;
         log ("新遥测机器ID: " ++ substring 0 16 (fst ids) ++ "...") ;;
         log ("新设备ID: " ++ snd ids) ;;
         msgbox Information "成功" "遥测数据重置完成")
      (fun e =>
         log ("重置遥测数据失败: " ++ exn_text e) ;;
         msgbox Critical "错误" ("重置遥测数据失败: " ++ exn_text e)).

(** ** Cleanup profiles *)

Inductive removal : Type := RmTree | Unlink.

Definition remove (how : removal) (p : path) : M unit :=
  match how with RmTree => rmtree p | Unlink => unlink p end.

Inductive entry_result : Type :=
  | Skipped
  | Removed
  | Failed (e : exn).

(** [if p.exists(): try: <remove p>; <on_ok> except Exception as e: <on_fail e>] *)
Definition clean_entry (how : removal) (p : path)
    (on_ok : M unit) (on_fail : exn -> M unit) : M entry_result :=
  present <- path_exists p ;;
  if present
  then try_except (remove how p ;; on_ok ;; ret Removed)
                  (fun e => on_fail e ;; ret (Failed e))
  else ret Skipped.

(** The cleanup loops of the program share one shape: walk a declared
    list of names under a base directory and remove those that exist,
    going on after a failure. [apply_profile] is that loop; its count is
    the loop's counter, and its second result collects the exceptions
    the [except] clause of the loop handled. *)
Fixpoint apply_profile (how : removal) (base : path) (names : list string)
    (on_ok : string -> M unit) (on_fail : string -> exn -> M unit)
  : M (nat * list (string * exn)) :=
  match names with
  | [] => ret (O, [])
  | name :: rest =>
      r <- clean_entry how (base ++ [name])%list (on_ok name) (on_fail name) ;;
      acc <- apply_profile how base rest on_ok on_fail ;;
      ret (match r with
           | Skipped => acc
           | Removed => (S (fst acc), snd acc)
           | Failed e => (fst acc, (name, e) :: snd acc)
           end)
  end.

Definition cache_dirs : list string :=
  ["Cache"; "blob_storage"; "Code Cache"; "SharedClientCache";
   "GPUCache"; "DawnGraphiteCache"; "DawnWebGPUCache"].

Definition identity_files : list string :=
  ["Network Persistent State"; "Cookies"; "Cookies-journal";
   "SharedStorage"; "SharedStorage-wal"; "Trust Tokens"; "Trust Tokens-journal";
   "TransportSecurity"; "Preferences"; "Local State"; "NetworkDataMigrated"].

Definition network_files : list string :=
  ["Cookies"; "Cookies-journal"; "Network Persistent State";
   "NetworkDataMigrated"; "TransportSecurity"; "Trust Tokens";
   "Trust Tokens-journal"].

Definition storage_dirs : list string :=
  ["Local Storage"; "Session Storage"; "WebStorage"; "Shared Dictionary";
   "Service Worker"; "clp"; "logs"; "Backups"; "CachedExtensionVSIXs"].

Definition critical_files : list string := [".info"; ".lock"; "mcp.json"].
Definition system_files : list string := ["code.lock"; "languagepacks.json"].
Definition cached_dirs : list string := ["CachedData"; "CachedProfilesData"].

Definition log_ok (prefix : string) (name : string) : M unit :=
  log ("   已清除: " ++ prefix ++ name).
Definition log_fail (prefix : string) (name : string) (e : exn) : M unit :=
  log ("   清除失败 " ++ prefix ++ name ++ ": " ++ exn_text e).
Definition quiet (name : string) : M unit := ret tt.
Definition swallow (name : string) (e : exn) : M unit := ret tt.

(** The seven loops of the program that have this shape, each with the
    removal, the directory, the names and the log lines the source gives
    it. *)
Inductive profile : Type :=
  | CacheProfile | IdentityProfile | NetworkProfile | StorageProfile
  | SharedCacheProfile | SystemProfile | CachedDataProfile.

Definition profile_how (p : profile) : removal :=
  match p with
  | CacheProfile | StorageProfile | CachedDataProfile => RmTree
  | IdentityProfile | NetworkProfile | SharedCacheProfile | SystemProfile => Unlink
  end.

Definition profile_base (p : profile) : path :=
  match p with
  | NetworkProfile => network_dir
  | SharedCacheProfile => shared_cache
  | _ => qoder_support_dir
  end.

Definition profile_names (p : profile) : list string :=
  match p with
  | CacheProfile => cache_dirs
  | IdentityProfile => identity_files
  | NetworkProfile => network_files
  | StorageProfile => storage_dirs
  | SharedCacheProfile => critical_files
  | SystemProfile => system_files
  | CachedDataProfile => cached_dirs
  end.

Definition run_profile (p : profile) : M (nat * list (string * exn)) :=
  match p with
  | CacheProfile => apply_profile RmTree qoder_support_dir cache_dirs quiet swallow
  | IdentityProfile =>
      apply_profile Unlink qoder_support_dir identity_files (log_ok "") (log_fail "")
  | NetworkProfile =>
      apply_profile Unlink network_dir network_files (log_ok "Network/") (log_fail "Network/")
  | StorageProfile =>
      apply_profile RmTree qoder_support_dir storage_dirs (log_ok "") (log_fail "")
  | SharedCacheProfile =>
      apply_profile Unlink shared_cache critical_files
        (log_ok "SharedClientCache/") (log_fail "")
  | SystemProfile =>
      apply_profile Unlink qoder_support_dir system_files (log_ok "") (log_fail "")
  | CachedDataProfile =>
      apply_profile RmTree qoder_support_dir cached_dirs (log_ok "") (log_fail "")
  end.

(** ** [perform_advanced_identity_cleanup] *)

Definition count_of (r : entry_result) : nat :=
  match r with Removed => 1%nat | _ => O end.

Definition base_name (p : path) : string := List.last p EmptyString.

(** The loop over the [glob] result: no [exists] test before [unlink]. *)
Fixpoint unlink_sockets (socket_files : list path) : M nat :=
  match socket_files with
  | [] => ret O
  | socket_file :: rest =>
      n <- try_except
             (unlink socket_file ;;
              log ("   已清除: " ++ base_name socket_file) ;;
              ret 1%nat)
             (fun e =>
              log ("   清除失败 " ++ base_name socket_file ++ ": " ++ exn_text e) ;;
              ret O) ;;
      m <- unlink_sockets rest ;;
      ret (n + m)%nat
  end.

Definition perform_advanced_identity_cleanup : M unit :=
  try_except
    (log "开始高级身份清理..." ;;
     present <- path_exists shared_cache ;;
     n1 <- (if present then
              a <- run_profile SharedCacheProfile ;;
              b <- clean_entry RmTree (shared_cache ++ ["index"])%list
                     (log "   已清除: SharedClientCache/index")
                     (fun e => log ("   清除失败 index: " ++ exn_text e)) ;;
              c <- clean_entry RmTree (shared_cache ++ ["cache"])%list
                     (log "   已清除: SharedClientCache/cache")
                     (fun e => log ("   清除失败 cache: " ++ exn_text e)) ;;
              ret (fst a + count_of b + count_of c)%nat
            else ret O) ;;
     n2 <- run_profile SystemProfile ;;
     n3 <- clean_entry RmTree ["Crashpad"]
             (log "   已清除: Crashpad")
             (fun e => log ("   清除失败 Crashpad: " ++ exn_text e)) ;;
     n4 <- run_profile CachedDataProfile ;;
     socket_files <- glob_sock ;;
     n5 <- unlink_sockets socket_files ;;
     log ("   高级身份清理完成，处理了 "
            ++ pretty (n1 + fst n2 + count_of n3 + fst n4 + n5)%nat ++ " 个项目"))
    (fun e => log ("   高级身份清理失败: " ++ exn_text e)).

(** ** [clear_chat_history] *)

Definition is_chat_key (key : string) : bool :=
  py_in "chat" (lower key) || py_in "conversation" (lower key)
  || py_in "history" (lower key) || py_in "session" (lower key).

(** [data.keys()]: only a dictionary has the method. *)
Definition keys_of (data : json) : M (list string) :=
  match data with
  | JDict d => ret (dict_keys d)
  | _ => raise AttributeError
  end.

(** [for key in chat_keys: del data[key]; self.log(...)] *)
Fixpoint del_keys (chat_keys : list string) (d : dict) : M dict :=
  match chat_keys with
  | [] => ret d
  | key :: rest =>
      match dict_del key d with
      | None => raise KeyError
      | Some d' => log ("   已清除配置: " ++ key) ;; del_keys rest d'
      end
  end.

Definition purge_chat_keys (data : json) : M nat :=
  keys <- keys_of data ;;
  let chat_keys := List.filter is_chat_key keys in
  match chat_keys, data with
  | _ :: _, JDict d =>
      d' <- del_keys chat_keys d ;;
      write_file storage_json_file (Json (JDict d')) ;;
      ret 1%nat
  | _, _ => ret O
  end.

Definition clean_logged (p : path) : M entry_result :=
  clean_entry RmTree p
    (log ("   已清除: " ++ path_text p))
    (fun e => log ("   清除失败 " ++ path_text p ++ ": " ++ exn_text e)).

(** The body of [for workspace_dir in workspace_storage.iterdir()]. *)
Fixpoint clear_workspaces (dirs : list path) : M nat :=
  match dirs with
  | [] => ret O
  | workspace_dir :: rest =>
      d <- is_dir workspace_dir ;;
      n <- (if d then
              a <- clean_logged (workspace_dir ++ ["chatSessions"])%list ;;
              b <- clean_logged (workspace_dir ++ ["chatEditingSessions"])%list ;;
              ret (count_of a + count_of b)%nat
            else ret O) ;;
      m <- clear_workspaces rest ;;
      ret (n + m)%nat
  end.

Definition workspace_storage : path := ["User"; "workspaceStorage"].

(** Parts 1 to 3 of [clear_chat_history]: the chat directories of every
    workspace, the history directory, the session storage. *)
Definition clear_chat_dirs : M nat :=
  present <- path_exists workspace_storage ;;
  n1 <- (if present then dirs <- iterdir workspace_storage ;; clear_workspaces dirs
         else ret O) ;;
  n2 <- clean_logged ["User"; "History"] ;;
  n3 <- clean_logged ["Session Storage"] ;;
  ret (n1 + count_of n2 + count_of n3)%nat.

(** Part 4: the chat-related keys of [storage.json]. *)
Definition clear_chat_config : M nat :=
  present <- path_exists storage_json_file ;;
  if present then
    try_except
      (data <- read_json storage_json_file ;; purge_chat_keys data)
      (fun e => log ("   清除用户配置失败: " ++ exn_text e) ;; ret O)
  else ret O.

Definition clear_chat_history : M unit :=
  try_except
    (n <- clear_chat_dirs ;;
     n4 <- clear_chat_config ;;
     log ("   对话记录清除完成 (处理了 " ++ pretty (n + n4)%nat ++ " 个项目)"))
    (fun e => log ("   清除对话记录失败: " ++ exn_text e)).

(** ** [perform_full_reset] *)

Definition step_machine_id : M unit :=
  log "1. 重置机器ID..." ;;
  present <- path_exists machine_id_file ;;
  if present then
    u <- uuid4 ;;
    write_file machine_id_file (Text (uuid_str u)) ;;
    log "   机器ID已重置"
  else ret tt.

Definition step_telemetry : M unit :=
  log "2. 重置遥测数据..." ;;
  present <- path_exists storage_json_file ;;
  if present then
    rewrite_telemetry ;;
    log "   遥测数据已重置"
  else ret tt.

Definition step_cache : M unit :=
  log "3. 清理缓存数据..." ;;
  r <- run_profile CacheProfile ;;
  log ("   已清理 " ++ pretty (fst r) ++ " 个缓存目录").

Definition step_identity_files : M nat :=
  log "4. 清理身份识别文件..." ;;
  r <- run_profile IdentityProfile ;;
  ret (fst r).

Definition step_network_files : M nat :=
  present <- path_exists network_dir ;;
  if present then
    r <- run_profile NetworkProfile ;;
    ret (fst r)
  else ret O.

Definition step_storage_dirs : M nat :=
  r <- run_profile StorageProfile ;;
  ret (fst r).

Definition step_advanced : M unit :=
  log "5. 执行高级身份清理..." ;;
  perform_advanced_identity_cleanup.

Definition step_chat (preserve_chat : bool) : M unit :=
  if preserve_chat then
    log "6. 保留对话记录..." ;;
    log "   对话记录已保留"
  else
    log "6. 清除对话记录..." ;;
    clear_chat_history.

(** Steps 3 to 6: everything after the two identifier steps. *)
Definition cleanup_steps (preserve_chat : bool) : M unit :=
  step_cache ;;
  a <- step_identity_files ;;
  b <- step_network_files ;;
  c <- step_storage_dirs ;;
  log ("   已清理 " ++ pretty (a + b + c)%nat ++ " 个身份识别文件/目录") ;;
  step_advanced ;;
  step_chat preserve_chat.

Definition perform_full_reset (preserve_chat : bool) : M unit :=
  found <- path_exists qoder_support_dir ;;
  if negb found then raise data_dir_missing
  else
    step_machine_id ;;
    step_telemetry ;;
    cleanup_steps preserve_chat.

(** ** Operations behind the confirmation dialogs *)

(** The guard shared by [deep_identity_cleanup] and [one_click_reset]:
    when the probe finds the application, ask the operator to close it
    and probe once more. [true] lets the operation go on. Here and in
    the two operations below, a dialog text of several lines is abridged
    to its first line. *)
Definition running_guard : M bool :=
  r <- check_qoder_running ;;
  if fst r then
    reply <- question "检测到 Qoder 正在运行"
               ("检测到 Qoder 正在运行 (PID: " ++ join ", " (snd r) ++ ")") ;;
    if negb reply then
      log "用户取消操作" ;; ret false
    else
      r2 <- check_qoder_running ;;
      if fst r2 then
        log "Qoder 仍在运行，操作取消" ;;
        msgbox Critical "错误" "请先完全关闭 Qoder 应用程序" ;;
        ret false
      else ret true
  else ret true.

Definition deep_identity_cleanup : M unit :=
  log "开始深度身份清理..." ;;
  go <- running_guard ;;
  if negb go then ret tt
  else
    reply <- question "确认深度清理" "深度身份清理将：" ;;
    if negb reply then log "用户取消深度清理"
    else
      try_except
        (found <- path_exists qoder_support_dir ;;
         if negb found then raise data_dir_missing
         else
           log (rule 40) ;; log "开始深度身份清理" ;; log (rule 40) ;;
           perform_advanced_identity_cleanup ;;
           log (rule 40) ;; log "深度身份清理完成！" ;; log (rule 40) ;;
           msgbox Information "完成" "深度身份清理完成！")
        (fun e =>
           log ("深度清理失败: " ++ exn_text e) ;;
           msgbox Critical "错误" ("深度清理失败: " ++ exn_text e)).

Definition one_click_reset : M unit :=
  log "开始一键修改所有配置..." ;;
  go <- running_guard ;;
  if negb go then ret tt
  else
    preserve_chat <- isChecked ;;
    reply <- question "确认一键修改" "一键修改所有配置将：" ;;
    if negb reply then log "用户取消一键修改"
    else
      try_except
        (log (rule 40) ;; log "开始一键修改所有配置" ;; log (rule 40) ;;
         preserve_chat <- isChecked ;;
         perform_full_reset preserve_chat ;;
         log (rule 40) ;; log "一键修改完成！" ;; log (rule 40) ;;
         msgbox Information "完成" "一键修改所有配置完成！")
        (fun e =>
           log ("一键修改失败: " ++ exn_text e) ;;
           msgbox Critical "错误" ("一键修改失败: " ++ exn_text e)).

(** The four operations that change files. *)
Inductive operation : Type :=
  | ResetMachineId
  | ResetTelemetry
  | DeepIdentityCleanup
  | FullReset.

Definition run (op : operation) : M unit :=
  match op with
  | ResetMachineId => reset_machine_id
  | ResetTelemetry => reset_telemetry
  | DeepIdentityCleanup => deep_identity_cleanup
  | FullReset => one_click_reset
  end.

(** ** The rest of the program: path resolution, status check, close request *)




(** [with open(p, 'r') as f: f.read()]. For a file kept in decoded
    form the text is whatever [raw] says it is. *)
Definition read_text (raw : content -> string) (p : path) : M string :=
  fun env st =>
    match fs st !! p with
    | None => (Raise FileNotFoundError, st, [])
    | Some Dir => (Raise IsADirectoryError, st, [])
    | Some (File c) =>
        if deny env ARead p then (Raise PermissionError, st, [])
        else (Ok (raw c), st, [])
    end.

(** Lift a pure computation that may raise. *)
Definition lift {A} (r : outcome A) : M A := fun _ st => (r, st, []).

(** [k in data] on whatever [json.load] returned: key membership for a
    dictionary, element membership for a list, substring for a string,
    [TypeError] otherwise. *)
Definition py_contains (k : string) (data : json) : outcome bool :=
  match data with
  | JDict d => Ok (match dict_get k d with Some _ => true | None => false end)
  | JList items =>
      Ok (existsb (fun v => match v with JStr s => String.eqb s k | _ => false end) items)
  | JStr s => Ok (py_in k s)
  | _ => Raise TypeError
  end.

(** [data[k]] for a string [k]. *)
Definition get_item (data : json) (k : string) : outcome json :=
  match data with
  | JDict d => match dict_get k d with Some v => Ok v | None => Raise KeyError end
  | _ => Raise TypeError
  end.

(** [v[:16]]: strings and lists can be sliced. *)
Definition slice16 (v : json) : outcome json :=
  match v with
  | JStr s => Ok (JStr (substring 0 16 s))
  | JList items => Ok (JList (firstn 16 items))
  | _ => Raise TypeError
  end.

(** [f"{v}"]: a string is inserted as it is, any other value through
    its [str], left to [show]. *)
Definition fmt (show : json -> string) (v : json) : string :=
  match v with JStr s => s | _ => show v end.

(** [for p in ...: if p.exists(): count += 1] *)
Fixpoint count_existing (ps : list path) : M nat :=
  match ps with
  | [] => ret O
  | p :: rest =>
      found <- path_exists p ;;
      n <- count_existing rest ;;
      ret (if found then S n else n)
  end.

Definition under (base : path) (names : list string) : list path :=
  map (fun name => (base ++ [name])%list) names.

Definition status_machine_id (raw : content -> string) : M unit :=
  log "3. 检查机器ID文件..." ;;
  found <- path_exists machine_id_file ;;
  if found then
    try_except
      (text <- read_text raw machine_id_file ;;
       log ("   ✅ 机器ID: " ++ strip text))
      (fun e => log ("   ❌ 读取机器ID失败: " ++ exn_text e))
  else log "   ❌ 机器ID文件不存在".

Definition status_telemetry (show : json -> string) : M unit :=
  log "4. 检查遥测数据文件..." ;;
  found <- path_exists storage_json_file ;;
  if found then
    try_except
      (data <- read_json storage_json_file ;;
       has_machine <- lift (py_contains "telemetry.machineId" data) ;;
       (if has_machine then
          machine_id <- lift (get_item data "telemetry.machineId") ;;
          head <- lift (slice16 machine_id) ;;
          log ("   ✅ 遥测机器ID: " ++ fmt show head ++ "...")
        else log "   ⚠️  未找到遥测机器ID") ;;
       has_device <- lift (py_contains "telemetry.devDeviceId" data) ;;
       if has_device then
         device_id <- lift (get_item data "telemetry.devDeviceId") ;;
         log ("   ✅ 设备ID: " ++ fmt show device_id)
       else log "   ⚠️  未找到设备ID")
      (fun e => log ("   ❌ 读取遥测数据失败: " ++ exn_text e))
  else log "   ❌ 遥测数据文件不存在".

Definition status_counts : M unit :=
  log "5. 检查缓存目录..." ;;
  cache_count <- count_existing (under qoder_support_dir cache_dirs) ;;
  log ("   ✅ 发现 " ++ pretty cache_count ++ "/" ++ pretty (length cache_dirs)
         ++ " 个缓存目录") ;;
  log "6. 检查对话记录..." ;;
  chat_count <- count_existing
                  [workspace_storage; ["User"; "History"]; ["logs"]; ["CachedData"]] ;;
  log ("   ✅ 发现 " ++ pretty chat_count ++ "/" ++ pretty 4%nat ++ " 个对话相关目录") ;;
  log "7. 检查身份识别文件..." ;;
  identity_count <- count_existing
                      (under qoder_support_dir
                         ["Local State"; "Preferences"; "SharedStorage"; "SharedStorage-wal"]) ;;
  has_network <- path_exists network_dir ;;
  network_count <- (if has_network then
                      count_existing
                        (under network_dir
                           ["Cookies"; "Network Persistent State"; "Trust Tokens";
                            "TransportSecurity"; "NetworkDataMigrated"])
                    else ret O) ;;
  log ("   ✅ 发现 " ++ pretty identity_count ++ "/" ++ pretty 4%nat
         ++ " 个根目录身份文件") ;;
  log ("   ✅ 发现 " ++ pretty network_count ++ "/" ++ pretty 5%nat
         ++ " 个网络身份文件") ;;
  log "8. 检查 SharedClientCache 内部文件..." ;;
  has_shared <- path_exists shared_cache ;;
  if has_shared then
    files <- count_existing (under shared_cache critical_files) ;;
    has_index <- path_exists (shared_cache ++ ["index"])%list ;;
    log ("   ✅ SharedClientCache 内部文件: "
           ++ pretty (if has_index then S files else files) ++ "/4 个")
  else log "   ⚠️  SharedClientCache 目录不存在".

(** [initialize_status_check]: the whole body, probe included, sits in
    one [try]. *)
Definition initialize_status_check (raw : content -> string) (show : json -> string)
  : M unit :=
  try_except
    (log "1. 检查Qoder进程状态..." ;;
     r <- check_qoder_running ;;
     (if fst r then log ("   ✅ Qoder正在运行 (PID: " ++ join ", " (snd r) ++ ")")
      else log "   ✅ Qoder未运行") ;;
     log "2. 检查Qoder目录..." ;;
     found <- path_exists qoder_support_dir ;;
     (if found then
        log "   ✅ Qoder目录存在" ;;
        status_machine_id raw ;;
        status_telemetry show ;;
        status_counts
      else
        log "   ❌ Qoder目录不存在" ;;
        log "   请确保已安装Qoder应用程序") ;;
     log (rule 50) ;;
     log "状态检查完成，可以开始操作")
    (fun e =>
       log ("❌ 状态检查失败: " ++ exn_text e) ;;
       log (rule 50)).

(** [close_qoder]: it only looks and tells. *)
Definition close_qoder : M unit :=
  log "正在检查 Qoder 运行状态..." ;;
  r <- check_qoder_running ;;
  if fst r then
    log ("检测到 Qoder 正在运行 (PID: " ++ join ", " (snd r) ++ ")") ;;
    log "请手动关闭 Qoder 应用程序" ;;
    msgbox Information "检测到 Qoder 正在运行"
      ("检测到 Qoder 正在运行 (PID: " ++ join ", " (snd r) ++ ")")
  else
    log "Qoder 未运行" ;;
    msgbox Information "状态检查" "Qoder 当前未运行".

(** ** Vocabulary of the statements *)

(** The effect of one trace event on the file system, and of a whole
    trace. Every computation above changes the file system exactly as
    its trace says ([tracks] below). *)
Definition apply_event (e : event) (f : gmap path node) : gmap path node :=
  match e with
  | Written p c => <[p := File c]> f
  | Unlinked p => delete p f
  | TreeRemoved p => filter (λ kv : path * node, ¬ p `prefix_of` kv.1) f
  | _ => f
  end.

Definition replay (evs : list event) (f : gmap path node) : gmap path node :=
  fold_left (fun f e => apply_event e f) evs f.

(** [tracks P m]: every event of [m] satisfies [P], and the final file
    system is the initial one with the trace replayed. *)
Definition tracks {A} (P : event -> Prop) (m : M A) : Prop :=
  forall env st r st' evs,
    m env st = (r, st', evs) -> Forall P evs /\ fs st' = replay evs (fs st).

(** [safe m]: [m] returns normally from every state. *)
Definition safe {A} (m : M A) : Prop :=
  forall env st, exists a st' evs, m env st = (Ok a, st', evs).

(** [logger m]: [m] only writes the same lines to the log. *)
Definition logger (m : M unit) : Prop :=
  exists evs, mutations evs = [] /\ forall env st, m env st = (Ok tt, st, evs).

Definition in_profile (base : path) (names : list string) (p : path) : Prop :=
  exists name, In name names /\ p = (base ++ [name])%list.

(** The events a walk over a profile may leave. *)
Definition profile_event (how : removal) (base : path) (names : list string)
    (e : event) : Prop :=
  match e with
  | Unlinked p => how = Unlink /\ in_profile base names p
  | TreeRemoved p => how = RmTree /\ in_profile base names p
  | Written _ _ => False
  | _ => True
  end.

(** The steps of a full reset and the mutations each may perform. *)
Inductive stage : Type :=
  | SMachineId | STelemetry | SCache | SIdentityFiles | SNetworkFiles
  | SStorageDirs | SAdvanced | SChat.

Definition chat_session_dir (p : path) : Prop :=
  exists workspace name,
    p = (workspace_storage ++ [workspace; name])%list
    /\ (name = "chatSessions" \/ name = "chatEditingSessions").

Definition allowed (s : stage) (e : event) : Prop :=
  match e with
  | Log _ | MsgBox _ _ _ | Question _ _ _ => True
  | Written p c =>
      match s, c with
      | SMachineId, Text _ => p = machine_id_file
      | STelemetry, Json _ => p = storage_json_file
      | SChat, Json _ => p = storage_json_file
      | _, _ => False
      end
  | Unlinked p =>
      match s with
      | SIdentityFiles => in_profile qoder_support_dir identity_files p
      | SNetworkFiles => in_profile network_dir network_files p
      | SAdvanced =>
          in_profile shared_cache critical_files p
          \/ in_profile qoder_support_dir system_files p
          \/ is_sock p = true
      | _ => False
      end
  | TreeRemoved p =>
      match s with
      | SCache => in_profile qoder_support_dir cache_dirs p
      | SStorageDirs => in_profile qoder_support_dir storage_dirs p
      | SAdvanced =>
          in_profile shared_cache ["index"; "cache"] p
          \/ p = ["Crashpad"]
          \/ in_profile qoder_support_dir cached_dirs p
      | SChat =>
          chat_session_dir p \/ p = ["User"; "History"] \/ p = ["Session Storage"]
      | _ => False
      end
  end.

(** The events of the directory part of the chat purge. *)
Definition chat_dirs_event (e : event) : Prop :=
  match e with
  | TreeRemoved p =>
      chat_session_dir p \/ p = ["User"; "History"] \/ p = ["Session Storage"]
  | Written _ _ | Unlinked _ => False
  | _ => True
  end.

Fixpoint all_lower_hex (s : string) : bool :=
  match s with
  | EmptyString => true
  | String c s' => is_lower_hex c && all_lower_hex s'
  end.




Definition present (st : state) (p : path) : bool :=
  match fs st !! p with Some _ => true | None => false end.

(** The removal [how] of [p] goes through: the node is of the right
    kind and the system does not refuse. *)
Definition removable (env : environment) (st : state) (how : removal) (p : path) : Prop :=
  deny env ARemove p = false
  /\ match how, fs st !! p with
     | RmTree, Some (File _) => False
     | Unlink, Some Dir => False
     | _, _ => True
     end.

Definition removal_event (how : removal) (p : path) : event :=
  match how with RmTree => TreeRemoved p | Unlink => Unlinked p end.


(** No constraint on the events. *)
Definition anything (e : event) : Prop := True.

(** A machine without [pgrep] on which [psutil] lists a process whose
    name it could not read. *)
Definition unreadable_name_env : probe_env :=
  ProbeEnv Linux (fun _ => Raise FileNotFoundError) (PsutilProcs [ProcInfo 1 None]).

(** The state once one probe has been consumed. *)
Definition after_probe (st : state) : state :=
  State (fs st) (S (probed st)) (asked st) (drawn st).

(** A run that tells its caller it failed: an exception reaches the
    caller or an error or warning dialog is shown, and no dialog
    announces success. *)
Definition reports_failure (r : outcome unit) (evs : list event) : Prop :=
  ((exists e, r = Raise e)
   \/ exists kind title text, kind <> Information /\ In (MsgBox kind title text) evs)
  /\ forall title text, ~ In (MsgBox Information title text) evs.

(** The UUID built from the [n]-th block of random bytes. *)
Definition uuid_at (env : environment) (n : nat) : Z :=
  uuid4_of (urandom env n mod 2 ^ 128).




(** The listed names that exist under [base]. *)
Definition existing (st : state) (base : path) (names : list string) : list string :=
  List.filter (fun name => present st (base ++ [name])%list) names.

(** ** Vocabulary of the further statements *)

Definition is_log (e : event) : Prop :=
  match e with Log _ => True | _ => False end.

Definition is_log_or_box (e : event) : Prop :=
  match e with Log _ | MsgBox _ _ _ => True | _ => False end.

(** [untouched q e]: the event [e] cannot change what is found at [q]. *)
Definition untouched (q : path) (e : event) : Prop :=
  match e with
  | Written p _ | Unlinked p => p <> q
  | TreeRemoved p => ¬ p `prefix_of` q
  | _ => True
  end.



(** A path below the [User] directory. *)
Definition in_user_dir (q : path) : Prop := exists rest, q = "User" :: rest.

(** Surroundings in which no probe raises. *)
Definition probes_return (env : environment) : Prop :=
  forall n, exists r, check_process_running (probes env n) "Qoder" = Ok r.

(** [returns env m]: in these surroundings [m] returns normally from
    every state. *)
Definition returns {A} (env : environment) (m : M A) : Prop :=
  forall st, exists a st' evs, m env st = (Ok a, st', evs).

(** The title of the confirmation dialog of an operation that has one. *)
Definition confirm_title (op : operation) : option string :=
  match op with
  | DeepIdentityCleanup => Some "确认深度清理"
  | FullReset => Some "确认一键修改"
  | _ => None
  end.

(** The one file a standalone reset may write. *)
Definition own_file (op : operation) : option path :=
  match op with
  | ResetMachineId => Some machine_id_file
  | ResetTelemetry => Some storage_json_file
  | _ => None
  end.


(** An entry of the process list whose inspection raises one of the two
    exceptions the scan passes over. *)
Definition vanished (p : proc_entry) : bool :=
  match p with
  | ProcRaises NoSuchProcess | ProcRaises AccessDenied => true
  | _ => false
  end.

(** ** Sample surroundings *)

(** A probe that finds nothing, and one that finds process 4242. *)
Definition idle_probe : probe_env :=
  ProbeEnv Linux (fun _ => Ok (Completed 1 "")) PsutilMissing.

Definition busy_probe : probe_env :=
  ProbeEnv Linux (fun _ => Ok (Completed 0 (String "4" (String "2" (String "4"
    (String "2" (String newline "")))))))
    PsutilMissing.

(** Nothing is refused, the operator answers Yes, chat is preserved. *)
Definition sample_env : environment :=
  Environment (fun _ _ => false) (fun _ => idle_probe) (fun _ => true)
    (fun n => Z.of_nat n + 5) true.

Definition busy_env : environment :=
  Environment (fun _ _ => false) (fun _ => busy_probe) (fun _ => true)
    (fun n => Z.of_nat n + 5) true.

Definition sample_dict : dict :=
  [("telemetry.machineId", JStr "x"); ("telemetry.devDeviceId", JStr "y");
   ("other", JInt 1); ("Chat.lastSession", JNull)].

(** A data directory with a machine id, a [storage.json], a cache
    directory holding one file, and a socket. *)
Definition sample_state : state :=
  State (list_to_map
           [(qoder_support_dir, Dir);
            (machine_id_file, File (Text "abc"));
            (["User"], Dir);
            (["User"; "globalStorage"], Dir);
            (storage_json_file, File (Json (JDict sample_dict)));
            (["Cache"], Dir);
            (["Cache"; "data_0"], File (Text "zz"));
            (["ipc.sock"], File (Text ""))])
        0 0 0.

(** A data directory with nothing in it, and no data directory. *)
Definition bare_state : state := State (list_to_map [(qoder_support_dir, Dir)]) 0 0 0.
Definition empty_state : state := State ∅ 0 0 0.




(** Surroundings in which every probe raises, and surroundings in which
    every removal is refused. *)
Definition raising_env : environment :=
  Environment (fun _ _ => false) (fun _ => unreadable_name_env) (fun _ => true)
    (fun n => Z.of_nat n + 5) true.

Definition stubborn_env : environment :=
  Environment (fun a _ => match a with ARemove => true | _ => false end)
    (fun _ => idle_probe) (fun _ => true) (fun n => Z.of_nat n + 5) true.

(** A data directory whose [storage.json] is not a JSON document, and
    one whose [workspaceStorage] is a regular file. *)
Definition broken_state : state :=
  State (list_to_map
           [(qoder_support_dir, Dir);
            (machine_id_file, File (Text "abc"));
            (["User"], Dir);
            (["User"; "globalStorage"], Dir);
            (storage_json_file, File (Text "{"));
            (["Cache"], Dir)])
        0 0 0.

Definition unlistable_state : state :=
  State (list_to_map
           [(qoder_support_dir, Dir);
            (["User"], Dir);
            (workspace_storage, File (Text ""));
            (["User"; "History"], Dir)])
        0 0 0.

(** * Properties *)

(** ** The monad: inversion, tracking and safety of the combinators *)

Lemma bind_inv {A B} (m : M A) (k : A -> M B) env st r st' evs :
  bind m k env st = (r, st', evs) ->
  (exists e, m env st = (Raise e, st', evs) /\ r = Raise e)
  \/ (exists a st1 e1 e2,
        m env st = (Ok a, st1, e1) /\ k a env st1 = (r, st', e2)
        /\ evs = (e1 ++ e2)%list).
Proof.
  unfold bind. destruct (m env st) as [[[a|e] st1] e1].
  - destruct (k a env st1) as [[r2 st2] e2] eqn:Hk. intros [= <- <- <-].
    right. exists a, st1, e1, e2. auto.
  - intros [= <- <- <-]. left. exists e. auto.
Qed.

Lemma bind_ok {A B} (m : M A) (k : A -> M B) env st a st1 e1 :
  m env st = (Ok a, st1, e1) ->
  bind m k env st =
    (let '(r, st2, e2) := k a env st1 in (r, st2, (e1 ++ e2)%list)).
Proof. unfold bind. intros ->. reflexivity. Qed.

Lemma bind_raise {A B} (m : M A) (k : A -> M B) env st e st1 e1 :
  m env st = (Raise e, st1, e1) -> bind m k env st = (Raise e, st1, e1).
Proof. unfold bind. intros ->. reflexivity. Qed.

Lemma try_inv {A} (body : M A) (handler : exn -> M A) env st r st' evs :
  try_except body handler env st = (r, st', evs) ->
  (exists a, body env st = (Ok a, st', evs) /\ r = Ok a)
  \/ (exists e st1 e1 e2,
        body env st = (Raise e, st1, e1) /\ handler e env st1 = (r, st', e2)
        /\ evs = (e1 ++ e2)%list).
Proof.
  unfold try_except. destruct (body env st) as [[[a|e] st1] e1].
  - intros [= <- <- <-]. left. exists a. auto.
  - destruct (handler e env st1) as [[r2 st2] e2] eqn:Hh. intros [= <- <- <-].
    right. exists e, st1, e1, e2. auto.
Qed.

Lemma replay_app e1 e2 f : replay (e1 ++ e2) f = replay e2 (replay e1 f).
Proof. unfold replay. apply fold_left_app. Qed.

Lemma mutations_app e1 e2 : mutations (e1 ++ e2) = (mutations e1 ++ mutations e2)%list.
Proof. unfold mutations. apply List.filter_app. Qed.

Lemma replay_silent evs f : mutations evs = [] -> replay evs f = f.
Proof.
  revert f. induction evs as [|e evs IH]; intros f H; [reflexivity|].
  unfold mutations in H. simpl in H. destruct e; simpl in *; try discriminate; auto.
Qed.

Section Tracking.
Context {A : Type} (P : event -> Prop).

Lemma tracks_ret (a : A) : tracks P (ret a).
Proof. intros env st r st' evs [= <- <- <-]. split; [constructor | reflexivity]. Qed.

Lemma tracks_raise (e : exn) : tracks P (@raise A e).
Proof. intros env st r st' evs [= <- <- <-]. split; [constructor | reflexivity]. Qed.

Lemma tracks_bind {B} (m : M B) (k : B -> M A) :
  tracks P m -> (forall b, tracks P (k b)) -> tracks P (bind m k).
Proof.
  intros Hm Hk env st r st' evs H.
  apply bind_inv in H as [(e & H & ->) | (b & st1 & e1 & e2 & H1 & H2 & ->)].
  - apply Hm in H. exact H.
  - apply Hm in H1 as [F1 E1]. apply Hk in H2 as [F2 E2]. split.
    + apply Forall_app. auto.
    + rewrite replay_app, <- E1. exact E2.
Qed.

Lemma tracks_try (body : M A) (handler : exn -> M A) :
  tracks P body -> (forall e, tracks P (handler e)) -> tracks P (try_except body handler).
Proof.
  intros Hb Hh env st r st' evs H.
  apply try_inv in H as [(a & H & ->) | (e & st1 & e1 & e2 & H1 & H2 & ->)].
  - apply Hb in H. exact H.
  - apply Hb in H1 as [F1 E1]. apply Hh in H2 as [F2 E2]. split.
    + apply Forall_app. auto.
    + rewrite replay_app, <- E1. exact E2.
Qed.

Lemma tracks_weaken (Q : event -> Prop) (m : M A) :
  (forall e, Q e -> P e) -> tracks Q m -> tracks P m.
Proof.
  intros HQ Hm env st r st' evs H. apply Hm in H as [F E]. split; [|exact E].
  eapply Forall_impl; [exact F | exact HQ].
Qed.

(** A computation that leaves the file system alone and says nothing. *)
Lemma tracks_quiet (m : M A) :
  (forall env st, fs (m env st).1.2 = fs st /\ (m env st).2 = []) -> tracks P m.
Proof.
  intros Hq env st r st' evs H. specialize (Hq env st). rewrite H in Hq.
  simpl in Hq. destruct Hq as [E ->]. split; [constructor | now rewrite E].
Qed.
End Tracking.

Lemma tracks_emit P (e : event) : P e -> is_mutation e = false -> tracks P (emit e).
Proof.
  intros HP Hs env st r st' evs [= <- <- <-]. split; [repeat constructor; exact HP|].
  destruct e; simpl in *; try discriminate; reflexivity.
Qed.

Lemma tracks_unlink P p : P (Unlinked p) -> tracks P (unlink p).
Proof.
  intros HP env st r st' evs. unfold unlink.
  destruct (fs st !! p) as [[c|]|]; try (intros [= <- <- <-]; split; [constructor|reflexivity]).
  destruct (deny env ARemove p); intros [= <- <- <-];
    (split; [repeat constructor; auto | reflexivity]).
Qed.

Lemma tracks_rmtree P p : P (TreeRemoved p) -> tracks P (rmtree p).
Proof.
  intros HP env st r st' evs. unfold rmtree.
  destruct (fs st !! p) as [[c|]|]; try (intros [= <- <- <-]; split; [constructor|reflexivity]).
  destruct (deny env ARemove p); intros [= <- <- <-];
    (split; [repeat constructor; auto | reflexivity]).
Qed.

Lemma tracks_write P p c : P (Written p c) -> tracks P (write_file p c).
Proof.
  intros HP env st r st' evs. unfold write_file.
  destruct (fs st !! p) as [[c'|]|].
  - destruct (deny env AWrite p); intros [= <- <- <-];
      (split; [repeat constructor; auto | reflexivity]).
  - intros [= <- <- <-]; split; [constructor|reflexivity].
  - destruct p as [|x p']; [intros [= <- <- <-]; split; [constructor|reflexivity]|].
    destruct (fs st !! removelast (x :: p')) as [[c'|]|];
      try (intros [= <- <- <-]; split; [constructor|reflexivity]).
    destruct (deny env AWrite (x :: p')); intros [= <- <- <-];
      (split; [repeat constructor; auto | reflexivity]).
Qed.

Lemma tracks_bind_post {A B} P (Q : B -> Prop) (m : M B) (k : B -> M A) :
  (forall env st b st' evs, m env st = (Ok b, st', evs) -> Q b) ->
  tracks P m -> (forall b, Q b -> tracks P (k b)) -> tracks P (bind m k).
Proof.
  intros HQ Hm Hk env st r st' evs H.
  apply bind_inv in H as [(e & H & ->) | (b & st1 & e1 & e2 & H1 & H2 & ->)].
  - apply Hm in H. exact H.
  - pose proof (HQ _ _ _ _ _ H1) as Hb.
    apply Hm in H1 as [F1 E1]. apply (Hk b Hb) in H2 as [F2 E2]. split.
    + apply Forall_app. auto.
    + rewrite replay_app, <- E1. exact E2.
Qed.

Lemma tracks_log P msg : P (Log msg) -> tracks P (log msg).
Proof. intros H. apply tracks_emit; [exact H | reflexivity]. Qed.

Lemma tracks_msgbox P kind title text :
  P (MsgBox kind title text) -> tracks P (msgbox kind title text).
Proof. intros H. apply tracks_emit; [exact H | reflexivity]. Qed.

Lemma tracks_question P title text :
  (forall answer, P (Question title text answer)) -> tracks P (question title text).
Proof.
  intros HP env st r st' evs [= <- <- <-]. split; [repeat constructor; apply HP | reflexivity].
Qed.

Lemma tracks_path_exists P p : tracks P (path_exists p).
Proof. apply tracks_quiet. intros; split; reflexivity. Qed.

Lemma tracks_is_dir P p : tracks P (is_dir p).
Proof. apply tracks_quiet. intros; split; reflexivity. Qed.

Lemma tracks_isChecked P : tracks P isChecked.
Proof. apply tracks_quiet. intros; split; reflexivity. Qed.

Lemma tracks_uuid4 P : tracks P uuid4.
Proof. apply tracks_quiet. intros; split; reflexivity. Qed.

Lemma tracks_check_qoder_running P : tracks P check_qoder_running.
Proof. apply tracks_quiet. intros; split; reflexivity. Qed.

Lemma tracks_glob_sock P : tracks P glob_sock.
Proof. apply tracks_quiet. intros; split; reflexivity. Qed.

Lemma tracks_read_json P p : tracks P (read_json p).
Proof.
  apply tracks_quiet. intros env st. unfold read_json.
  destruct (fs st !! p) as [[[s|j]|]|]; try destruct (deny env ARead p); split; reflexivity.
Qed.

Lemma tracks_iterdir P p : tracks P (iterdir p).
Proof.
  apply tracks_quiet. intros env st. unfold iterdir.
  destruct (fs st !! p) as [[c|]|]; try destruct (deny env AList p); split; reflexivity.
Qed.

(** One tactic walks the syntax of a computation. *)
Ltac track_leaf :=
  first
    [ apply tracks_ret | apply tracks_raise
    | apply tracks_log | apply tracks_msgbox | apply tracks_question
    | apply tracks_path_exists | apply tracks_is_dir | apply tracks_isChecked
    | apply tracks_uuid4 | apply tracks_check_qoder_running
    | apply tracks_glob_sock | apply tracks_read_json | apply tracks_iterdir
    | apply tracks_unlink | apply tracks_rmtree | apply tracks_write ].

Ltac track :=
  repeat first
    [ track_leaf
    | apply tracks_bind; [| intros ?]
    | apply tracks_try; [| intros ?]
    | match goal with
      | |- tracks _ (if ?b then _ else _) => destruct b
      | |- tracks _ (match ?x with _ => _ end) => destruct x
      end ].

Lemma tracks_clean_entry P how p on_ok on_fail :
  P (removal_event how p) -> tracks P on_ok -> (forall e, tracks P (on_fail e)) ->
  tracks P (clean_entry how p on_ok on_fail).
Proof.
  intros HP Hok Hfail. unfold clean_entry, remove. track; auto.
Qed.

Lemma tracks_apply_profile P how base names on_ok on_fail :
  (forall name, In name names -> P (removal_event how (base ++ [name]))) ->
  (forall name, tracks P (on_ok name)) ->
  (forall name e, tracks P (on_fail name e)) ->
  tracks P (apply_profile how base names on_ok on_fail).
Proof.
  intros HP Hok Hfail. induction names as [|name rest IH]; simpl.
  - apply tracks_ret.
  - apply tracks_bind.
    + apply tracks_clean_entry; auto. apply HP. now left.
    + intros r. apply tracks_bind; [|intros acc; apply tracks_ret].
      apply IH. intros n Hn. apply HP. now right.
Qed.

Lemma profile_event_removal how base names name :
  In name names -> profile_event how base names (removal_event how (base ++ [name])).
Proof.
  intros H. destruct how; simpl; (split; [reflexivity|]); exists name; auto.
Qed.

Lemma tracks_run_profile (p : profile) :
  tracks (profile_event (profile_how p) (profile_base p) (profile_names p)) (run_profile p).
Proof.
  destruct p; cbv [run_profile profile_how profile_base profile_names];
    apply tracks_apply_profile;
    try (intros; apply profile_event_removal; assumption);
    intros; unfold quiet, swallow, log_ok, log_fail; track; exact I.
Qed.

(** ** Each step stays within its own files *)

Lemma profile_event_allowed (p : profile) (s : stage) :
  match p, s with
  | CacheProfile, SCache | IdentityProfile, SIdentityFiles
  | NetworkProfile, SNetworkFiles | StorageProfile, SStorageDirs
  | SharedCacheProfile, SAdvanced | SystemProfile, SAdvanced
  | CachedDataProfile, SAdvanced => True
  | _, _ => False
  end ->
  forall e, profile_event (profile_how p) (profile_base p) (profile_names p) e -> allowed s e.
Proof.
  destruct p, s; intros []; intros [] He; cbn in He |- *;
    try exact I; try tauto; try (destruct He as [? He]; try discriminate; tauto).
Qed.

Lemma tracks_profile_stage (p : profile) (s : stage) :
  match p, s with
  | CacheProfile, SCache | IdentityProfile, SIdentityFiles
  | NetworkProfile, SNetworkFiles | StorageProfile, SStorageDirs
  | SharedCacheProfile, SAdvanced | SystemProfile, SAdvanced
  | CachedDataProfile, SAdvanced => True
  | _, _ => False
  end ->
  tracks (allowed s) (run_profile p).
Proof.
  intros H. eapply tracks_weaken; [apply (profile_event_allowed p s H) | apply tracks_run_profile].
Qed.

Lemma tracks_rewrite_telemetry s :
  (s = STelemetry) -> tracks (allowed s) rewrite_telemetry.
Proof.
  intros ->. unfold rewrite_telemetry, generate_machine_id_hash, generate_device_id, set_item.
  track; try exact I; reflexivity.
Qed.

Lemma tracks_step_machine_id : tracks (allowed SMachineId) step_machine_id.
Proof. unfold step_machine_id. track; try exact I; reflexivity. Qed.

Lemma tracks_step_telemetry : tracks (allowed STelemetry) step_telemetry.
Proof.
  unfold step_telemetry. apply tracks_bind; [track; exact I | intros _].
  apply tracks_bind; [track | intros []]; [|track].
  apply tracks_bind; [apply tracks_rewrite_telemetry; reflexivity | intros _].
  track; exact I.
Qed.

Lemma tracks_step_cache : tracks (allowed SCache) step_cache.
Proof.
  unfold step_cache. apply tracks_bind; [track; exact I | intros _].
  apply tracks_bind; [apply tracks_profile_stage; exact I | intros r].
  track; exact I.
Qed.

Lemma tracks_step_identity_files : tracks (allowed SIdentityFiles) step_identity_files.
Proof.
  unfold step_identity_files. apply tracks_bind; [track; exact I | intros _].
  apply tracks_bind; [apply tracks_profile_stage; exact I | intros r]. track.
Qed.

Lemma tracks_step_network_files : tracks (allowed SNetworkFiles) step_network_files.
Proof.
  unfold step_network_files. apply tracks_bind; [track | intros []]; [|track].
  apply tracks_bind; [apply tracks_profile_stage; exact I | intros r]. track.
Qed.

Lemma tracks_step_storage_dirs : tracks (allowed SStorageDirs) step_storage_dirs.
Proof.
  unfold step_storage_dirs.
  apply tracks_bind; [apply tracks_profile_stage; exact I | intros r]. track.
Qed.

Lemma tracks_unlink_sockets socket_files :
  Forall (fun q => is_sock q = true) socket_files ->
  tracks (allowed SAdvanced) (unlink_sockets socket_files).
Proof.
  induction 1 as [|q rest Hq Hrest IH]; simpl; [apply tracks_ret|].
  apply tracks_bind.
  - track; try exact I. simpl. auto.
  - intros n. apply tracks_bind; [exact IH | intros m; apply tracks_ret].
Qed.

Lemma glob_sock_post env st socks st' evs :
  glob_sock env st = (Ok socks, st', evs) -> Forall (fun q => is_sock q = true) socks.
Proof.
  intros [= <- <- <-]. apply List.Forall_forall. intros q Hq.
  apply List.filter_In in Hq. tauto.
Qed.

Lemma tracks_advanced : tracks (allowed SAdvanced) perform_advanced_identity_cleanup.
Proof.
  unfold perform_advanced_identity_cleanup.
  apply tracks_try; [|intros e; track; exact I].
  apply tracks_bind; [track; exact I | intros _].
  apply tracks_bind; [track | intros present].
  apply tracks_bind.
  { destruct present; [|track].
    apply tracks_bind; [apply tracks_profile_stage; exact I | intros a].
    apply tracks_bind; [|intros b].
    { apply tracks_clean_entry; [|track; exact I|intros; track; exact I].
      simpl. left. exists "index". simpl. auto. }
    apply tracks_bind; [|intros c; track].
    apply tracks_clean_entry; [|track; exact I|intros; track; exact I].
    simpl. left. exists "cache". simpl. auto. }
  intros n1. apply tracks_bind; [apply tracks_profile_stage; exact I | intros n2].
  apply tracks_bind; [|intros n3].
  { apply tracks_clean_entry; [|track; exact I|intros; track; exact I]. simpl. auto. }
  apply tracks_bind; [apply tracks_profile_stage; exact I | intros n4].
  eapply tracks_bind_post; [apply glob_sock_post | track | intros socks Hs].
  apply tracks_bind; [apply tracks_unlink_sockets; exact Hs | intros n5].
  track; exact I.
Qed.

Lemma tracks_step_advanced : tracks (allowed SAdvanced) step_advanced.
Proof.
  unfold step_advanced. apply tracks_bind; [track; exact I | intros _]. apply tracks_advanced.
Qed.

Lemma is_child_of_spec (p q : path) :
  is_child_of p q = true -> exists name, q = (p ++ [name])%list.
Proof.
  unfold is_child_of. intros H. apply andb_true_iff in H as [Hp Hl].
  apply bool_decide_eq_true in Hp as [k ->]. apply Nat.eqb_eq in Hl.
  rewrite length_app in Hl. destruct k as [|name [|? ?]]; simpl in Hl; try lia.
  exists name. reflexivity.
Qed.

Lemma iterdir_post p env st dirs st' evs :
  iterdir p env st = (Ok dirs, st', evs) ->
  Forall (fun q => exists name, q = (p ++ [name])%list) dirs.
Proof.
  unfold iterdir. destruct (fs st !! p) as [[c|]|]; try discriminate.
  destruct (deny env AList p); try discriminate. intros [= <- <- <-].
  apply List.Forall_forall. intros q Hq. apply List.filter_In in Hq as [_ Hq].
  apply is_child_of_spec. exact Hq.
Qed.

Lemma tracks_clean_logged P p :
  P (TreeRemoved p) -> (forall msg, P (Log msg)) -> tracks P (clean_logged p).
Proof.
  intros HP HL. unfold clean_logged.
  apply tracks_clean_entry; [exact HP | track; apply HL | intros; track; apply HL].
Qed.

Lemma tracks_clear_workspaces dirs :
  Forall (fun q => exists name, q = (workspace_storage ++ [name])%list) dirs ->
  tracks chat_dirs_event (clear_workspaces dirs).
Proof.
  induction 1 as [|q rest [w ->] Hrest IH]; simpl; [apply tracks_ret|].
  apply tracks_bind; [track | intros d].
  apply tracks_bind; [|intros n; apply tracks_bind; [exact IH | intros m; track]].
  destruct d; [|track].
  apply tracks_bind; [|intros a; apply tracks_bind; [|intros b; track]];
    (apply tracks_clean_logged; [|intros; exact I]); simpl; left;
    [exists w, "chatSessions" | exists w, "chatEditingSessions"]; simpl; auto.
Qed.

Lemma tracks_clear_chat_dirs : tracks chat_dirs_event clear_chat_dirs.
Proof.
  unfold clear_chat_dirs. apply tracks_bind; [track | intros present].
  apply tracks_bind.
  { destruct present; [|track].
    eapply tracks_bind_post; [apply iterdir_post | track | intros dirs Hd].
    apply tracks_clear_workspaces. exact Hd. }
  intros n1. apply tracks_bind; [|intros n2].
  { apply tracks_clean_logged; [simpl; auto | intros; exact I]. }
  apply tracks_bind; [|intros n3; track].
  apply tracks_clean_logged; [simpl; auto | intros; exact I].
Qed.

Lemma chat_dirs_event_allowed e : chat_dirs_event e -> allowed SChat e.
Proof. destruct e; simpl; tauto. Qed.

Lemma tracks_del_keys chat_keys d : tracks (allowed SChat) (del_keys chat_keys d).
Proof.
  revert d. induction chat_keys as [|key rest IH]; intros d; simpl; [apply tracks_ret|].
  destruct (dict_del key d) as [d'|]; [|apply tracks_raise].
  apply tracks_bind; [track; exact I | intros _; apply IH].
Qed.

Lemma tracks_purge_chat_keys data : tracks (allowed SChat) (purge_chat_keys data).
Proof.
  unfold purge_chat_keys, keys_of. destruct data; try (track; fail).
  apply tracks_bind; [track | intros keys].
  destruct (List.filter is_chat_key keys) as [|k ks]; [track|].
  apply tracks_bind; [apply tracks_del_keys | intros d']. track. reflexivity.
Qed.

Lemma tracks_clear_chat_config : tracks (allowed SChat) clear_chat_config.
Proof.
  unfold clear_chat_config. apply tracks_bind; [track | intros present].
  destruct present; [|track].
  apply tracks_try; [|intros e; track; exact I].
  apply tracks_bind; [track | intros data]. apply tracks_purge_chat_keys.
Qed.

Lemma tracks_clear_chat_history : tracks (allowed SChat) clear_chat_history.
Proof.
  unfold clear_chat_history. apply tracks_try; [|intros e; track; exact I].
  apply tracks_bind; [|intros n].
  { eapply tracks_weaken; [apply chat_dirs_event_allowed | apply tracks_clear_chat_dirs]. }
  apply tracks_bind; [apply tracks_clear_chat_config | intros n4]. track; exact I.
Qed.

Lemma tracks_step_chat preserve_chat : tracks (allowed SChat) (step_chat preserve_chat).
Proof.
  unfold step_chat. destruct preserve_chat; [track; exact I|].
  apply tracks_bind; [track; exact I | intros _]. apply tracks_clear_chat_history.
Qed.

(** ** Computations that cannot fail *)

Section Safety.
Lemma safe_ret {A} (a : A) : safe (ret a).
Proof. intros env st. exists a, st, []. reflexivity. Qed.

Lemma safe_bind {A B} (m : M A) (k : A -> M B) :
  safe m -> (forall a, safe (k a)) -> safe (bind m k).
Proof.
  intros Hm Hk env st. destruct (Hm env st) as (a & st1 & e1 & H1).
  destruct (Hk a env st1) as (b & st2 & e2 & H2).
  exists b, st2, (e1 ++ e2)%list. rewrite (bind_ok _ _ _ _ _ _ _ H1), H2. reflexivity.
Qed.

(** Whatever the body does, a handler that cannot fail makes the
    whole [try] statement return. *)
Lemma safe_try {A} (body : M A) (handler : exn -> M A) :
  (forall e, safe (handler e)) -> safe (try_except body handler).
Proof.
  intros Hh env st. unfold try_except.
  destruct (body env st) as [[[a|e] st1] e1].
  - exists a, st1, e1. reflexivity.
  - destruct (Hh e env st1) as (b & st2 & e2 & H2). rewrite H2.
    exists b, st2, (e1 ++ e2)%list. reflexivity.
Qed.

Lemma safe_emit e : safe (emit e).
Proof. intros env st. exists tt, st, [e]. reflexivity. Qed.

Lemma safe_path_exists p : safe (path_exists p).
Proof. intros env st. eexists _, _, _. reflexivity. Qed.

Lemma safe_is_dir p : safe (is_dir p).
Proof. intros env st. eexists _, _, _. reflexivity. Qed.

Lemma safe_glob_sock : safe glob_sock.
Proof. intros env st. eexists _, _, _. reflexivity. Qed.
End Safety.

Ltac safety :=
  repeat first
    [ apply safe_ret | apply safe_emit | apply safe_path_exists | apply safe_is_dir
    | apply safe_glob_sock
    | apply safe_try; intros ?
    | apply safe_bind; [| intros ?]
    | match goal with
      | |- safe (log _) => apply safe_emit
      | |- safe (msgbox _ _ _) => apply safe_emit
      | |- safe (if ?b then _ else _) => destruct b
      end ].

Lemma safe_clean_entry how p on_ok on_fail :
  (forall e, safe (on_fail e)) -> safe (clean_entry how p on_ok on_fail).
Proof. intros H. unfold clean_entry. safety. apply H. Qed.

Lemma safe_apply_profile how base names on_ok on_fail :
  (forall name e, safe (on_fail name e)) ->
  safe (apply_profile how base names on_ok on_fail).
Proof.
  intros H. induction names as [|name rest IH]; simpl; [apply safe_ret|].
  apply safe_bind; [apply safe_clean_entry; apply H | intros r].
  apply safe_bind; [exact IH | intros acc; apply safe_ret].
Qed.

Lemma safe_run_profile p : safe (run_profile p).
Proof.
  destruct p; cbv [run_profile]; apply safe_apply_profile; intros;
    unfold swallow, log_fail; safety.
Qed.

Lemma safe_clean_logged p : safe (clean_logged p).
Proof. unfold clean_logged. apply safe_clean_entry. intros; safety. Qed.





Lemma safe_advanced : safe perform_advanced_identity_cleanup.
Proof. unfold perform_advanced_identity_cleanup. safety. Qed.


Lemma safe_clear_chat_history : safe clear_chat_history.
Proof. unfold clear_chat_history. safety. Qed.


(** ** The order of a full reset *)



Lemma path_exists_run p env st :
  path_exists p env st = (Ok (present st p), st, []).
Proof. reflexivity. Qed.

Lemma perform_full_reset_found preserve_chat env st :
  is_Some (fs st !! qoder_support_dir) ->
  perform_full_reset preserve_chat env st
  = (step_machine_id ;; step_telemetry ;; cleanup_steps preserve_chat) env st.
Proof.
  intros [root Hroot]. unfold perform_full_reset.
  rewrite (bind_ok _ _ _ _ _ _ _ (path_exists_run _ env st)).
  unfold present. rewrite Hroot. simpl.
  destruct ((step_machine_id ;; step_telemetry ;; cleanup_steps preserve_chat) env st)
    as [[? ?] ?]. reflexivity.
Qed.



(** ** The running-process guard *)

Lemma tracks_anything {A} P (m : M A) : tracks P m -> tracks anything m.
Proof. apply tracks_weaken. intros e _. exact I. Qed.

Lemma tracks_cleanup_steps preserve_chat : tracks anything (cleanup_steps preserve_chat).
Proof.
  unfold cleanup_steps.
  apply tracks_bind; [apply (tracks_anything _ _ tracks_step_cache) | intros _].
  apply tracks_bind; [apply (tracks_anything _ _ tracks_step_identity_files) | intros a].
  apply tracks_bind; [apply (tracks_anything _ _ tracks_step_network_files) | intros b].
  apply tracks_bind; [apply (tracks_anything _ _ tracks_step_storage_dirs) | intros c].
  apply tracks_bind; [track; exact I | intros _].
  apply tracks_bind; [apply (tracks_anything _ _ tracks_step_advanced) | intros _].
  apply (tracks_anything _ _ (tracks_step_chat preserve_chat)).
Qed.

Lemma tracks_perform_full_reset preserve_chat :
  tracks anything (perform_full_reset preserve_chat).
Proof.
  unfold perform_full_reset.
  apply tracks_bind; [track | intros found]. destruct (negb found); [track|].
  apply tracks_bind; [apply (tracks_anything _ _ tracks_step_machine_id) | intros _].
  apply tracks_bind; [apply (tracks_anything _ _ tracks_step_telemetry) | intros _].
  apply tracks_cleanup_steps.
Qed.

Lemma tracks_running_guard : tracks anything running_guard.
Proof. unfold running_guard. track; try exact I. intros; exact I. Qed.

Lemma tracks_run (op : operation) : tracks anything (run op).
Proof.
  destruct op; simpl.
  - unfold reset_machine_id. track; exact I.
  - unfold reset_telemetry. apply tracks_bind; [track; exact I | intros _].
    apply tracks_bind; [track | intros r]. destruct (fst r); [track; exact I|].
    apply tracks_try; [|intros e; track; exact I].
    apply tracks_bind; [track | intros present]. destruct (negb present); [track|].
    apply tracks_bind; [|intros ids; track; exact I].
    apply (tracks_anything _ _ (tracks_rewrite_telemetry STelemetry eq_refl)).
  - unfold deep_identity_cleanup. apply tracks_bind; [track; exact I | intros _].
    apply tracks_bind; [apply tracks_running_guard | intros go].
    destruct (negb go); [track|].
    apply tracks_bind; [track; intros; exact I | intros reply].
    destruct (negb reply); [track; exact I|].
    apply tracks_try; [|intros e; track; exact I].
    apply tracks_bind; [track | intros found]. destruct (negb found); [track|].
    do 3 (apply tracks_bind; [track; exact I | intros _]).
    apply tracks_bind; [apply (tracks_anything _ _ tracks_advanced) | intros _].
    track; exact I.
  - unfold one_click_reset. apply tracks_bind; [track; exact I | intros _].
    apply tracks_bind; [apply tracks_running_guard | intros go].
    destruct (negb go); [track|].
    apply tracks_bind; [track | intros preserve_chat].
    apply tracks_bind; [track; intros; exact I | intros reply].
    destruct (negb reply); [track; exact I|].
    apply tracks_try; [|intros e; track; exact I].
    do 3 (apply tracks_bind; [track; exact I | intros _]).
    apply tracks_bind; [track | intros preserve].
    apply tracks_bind; [apply tracks_perform_full_reset | intros _].
    track; exact I.
Qed.

(** What the guard does once the first probe has found the application. *)
Lemma running_guard_running env st pids r st' evs :
  check_process_running (probes env (probed st)) "Qoder" = Ok (true, pids) ->
  running_guard env st = (r, st', evs) ->
  mutations evs = []
  /\ match r with
     | Ok true =>
         replies env (asked st) = true
         /\ exists pids2,
              check_process_running (probes env (S (probed st))) "Qoder" = Ok (false, pids2)
     | _ => True
     end.
Proof.
  intros H1. unfold running_guard, bind, check_qoder_running, question. simpl.
  rewrite H1. simpl. destruct (replies env (asked st)); simpl.
  - destruct (check_process_running (probes env (S (probed st))) "Qoder")
      as [[[] pids2]|e]; simpl; intros [= <- <- <-]; (split; [reflexivity|]);
      try exact I. split; [reflexivity|]. exists pids2. reflexivity.
  - intros [= <- <- <-]. split; [reflexivity | exact I].
Qed.

(** An operation that opens with its log line, runs the guard and stops
    when the guard says so. *)
Lemma guarded_run msg (rest : M unit) env st pids r st' evs :
  check_process_running (probes env (probed st)) "Qoder" = Ok (true, pids) ->
  (log msg ;; go <- running_guard ;; if negb go then ret tt else rest) env st
    = (r, st', evs) ->
  mutations evs <> [] ->
  replies env (asked st) = true
  /\ exists pids2,
       check_process_running (probes env (S (probed st))) "Qoder" = Ok (false, pids2).
Proof.
  intros H1 H Hm.
  apply bind_inv in H as [(e & H & _) | (u & st1 & e1 & e2 & Hl & H & ->)];
    [discriminate H|].
  injection Hl as <- <- <-.
  apply bind_inv in H as [(e & H & _) | (go & st2 & e3 & e4 & Hg & H & ->)].
  - apply (running_guard_running _ _ _ _ _ _ H1) in H as [Hq _].
    exfalso. apply Hm. rewrite mutations_app, Hq. reflexivity.
  - apply (running_guard_running _ _ _ _ _ _ H1) in Hg as [Hq Hgo].
    destruct go; [exact Hgo|]. simpl in H. injection H as <- <- <-.
    exfalso. apply Hm. rewrite !mutations_app, Hq. reflexivity.
Qed.

(** C1. Once the first probe reports the application running, an
    operation changes a file only if the operator answered Yes to the
    prompt and the second probe reported it not running; when the second
    probe still reports it running, nothing is mutated. *)
Theorem no_mutation_while_running (op : operation) env st pids r st' evs :
  check_process_running (probes env (probed st)) "Qoder" = Ok (true, pids) ->
  run op env st = (r, st', evs) ->
  (mutations evs <> [] \/ fs st' <> fs st ->
     replies env (asked st) = true
     /\ exists pids2,
          check_process_running (probes env (S (probed st))) "Qoder" = Ok (false, pids2))
  /\ ((exists pids2,
         check_process_running (probes env (S (probed st))) "Qoder" = Ok (true, pids2)) ->
      mutations evs = [] /\ fs st' = fs st).
Proof.
  intros H1 H.
  assert (Hfs : mutations evs = [] -> fs st' = fs st).
  { intros Hm. apply tracks_run in H as [_ ->]. apply replay_silent. exact Hm. }
  assert (Hguard : mutations evs <> [] ->
    replies env (asked st) = true
    /\ exists pids2,
         check_process_running (probes env (S (probed st))) "Qoder" = Ok (false, pids2)).
  { intros Hm. destruct op; simpl in H.
    - exfalso. apply Hm. revert H.
      unfold reset_machine_id, bind, log, emit, check_qoder_running. simpl.
      rewrite H1. simpl. intros [= <- <- <-]. reflexivity.
    - exfalso. apply Hm. revert H.
      unfold reset_telemetry, bind, log, emit, check_qoder_running. simpl.
      rewrite H1. simpl. intros [= <- <- <-]. reflexivity.
    - eapply guarded_run; eassumption.
    - eapply guarded_run; eassumption. }
  split.
  - intros [Hm | Hne]; [auto|]. apply Hguard. intros Hm. apply Hne, Hfs, Hm.
  - intros [pids2 H2].
    assert (Hm : mutations evs = []).
    { destruct (mutations evs) as [|ev rest] eqn:E; [reflexivity|].
      destruct Hguard as [_ [pids3 H3]]; [discriminate|]. congruence. }
    split; [exact Hm | apply Hfs, Hm].
Qed.

(** ** Generated identifiers *)

Lemma is_lower_hex_hexdigit d : is_lower_hex (hexdigit d) = true.
Proof.
  destruct d as [|p|p]; [reflexivity| |reflexivity].
  do 4 (try (destruct p as [p|p|]; try reflexivity)).
Qed.

Lemma hex_fixed_length w n : String.length (hex_fixed w n) = w.
Proof. induction w as [|w IH]; simpl; [reflexivity | now rewrite IH]. Qed.

Lemma hex_fixed_lower_hex w n : all_lower_hex (hex_fixed w n) = true.
Proof.
  induction w as [|w IH]; [reflexivity|].
  cbn [hex_fixed all_lower_hex]. rewrite is_lower_hex_hexdigit. exact IH.
Qed.





(** The implementation agrees with the published test vectors. *)
Example sha256_abc :
  SHA256.hexdigest "abc"
  = "ba7816bf8f01cfea414140de5dae2223b00361a396177a9cb410ff61f20015ad".
Proof. vm_compute. reflexivity. Qed.

Example sha256_two_blocks :
  SHA256.hexdigest "abcdbcdecdefdefgefghfghighijhijkijkljklmklmnlmnomnopnopq"
  = "248d6a61d20638b8e5c026930c3e6039a33ce45964ff2167f6ecedd419db06c1".
Proof. vm_compute. reflexivity. Qed.

(** The shape of [str(UUID)] depends only on there being thirty-two
    hexadecimal digits to lay out. *)
Lemma uuid_layout (hex : string) :
  String.length hex = 32%nat -> all_lower_hex hex = true ->
  is_uuid_string
    (substring 0 8 hex ++ "-" ++ substring 8 4 hex ++ "-" ++ substring 12 4 hex
       ++ "-" ++ substring 16 4 hex ++ "-" ++ str_from 20 hex) = true.
Proof.
  intros Hlen Hhex.
  do 32 (destruct hex as [|? hex]; [discriminate Hlen|]).
  destruct hex; [|discriminate Hlen]. clear Hlen.
  cbn [all_lower_hex] in Hhex.
  repeat match type of Hhex with
         | (_ && _) = true => apply andb_true_iff in Hhex as [? Hhex]
         end.
  cbv -[is_lower_hex].
  repeat match goal with H : is_lower_hex _ = true |- _ => rewrite H; clear H end.
  reflexivity.
Qed.

Lemma uuid_str_valid u : is_uuid_string (uuid_str u) = true.
Proof.
  unfold uuid_str. apply uuid_layout; [apply hex_fixed_length | apply hex_fixed_lower_hex].
Qed.

Lemma uuid_str_version_char u :
  substring 14 1 (uuid_str u) = String (hexdigit (Z.land (Z.shiftr u 76) 15)) EmptyString.
Proof. reflexivity. Qed.

Lemma uuid4_version r : Z.land (Z.shiftr (uuid4_of r) 76) 15 = 4.
Proof.
  unfold uuid4_of. rewrite Z.shiftr_lor, Z.shiftr_land, Z.land_lor_distr_l.
  change (Z.shiftr (Z.shiftl 4 76) 76) with 4.
  change (Z.shiftr (Z.lnot (Z.shiftl 61440 64)) 76) with (-16).
  rewrite <- Z.land_assoc. change (Z.land (-16) 15) with 0.
  rewrite Z.land_0_r. reflexivity.
Qed.

Lemma uuid4_str_valid r : is_uuid4_string (uuid_str (uuid4_of r)) = true.
Proof.
  unfold is_uuid4_string. rewrite uuid_str_valid, uuid_str_version_char, uuid4_version.
  reflexivity.
Qed.


(** ** The process probe *)

(** C5 (the code departs from it). On [unreadable_name_env] the probe
    does not return: the [AttributeError] raised in the fallback loop is
    caught neither by the per-process handler nor by the handler for
    [ImportError], and reaches the caller. *)
Theorem check_process_running_propagates :
  check_process_running unreadable_name_env "Qoder" = Raise AttributeError.
Proof. reflexivity. Qed.

(** What does hold: the native mechanism never makes the probe raise,
    and without evidence from either mechanism the answer is
    [(false, [])]. *)
Lemma check_process_running_no_evidence env process_name :
  (native_probe env process_name = Ok None
   \/ ((exists e, native_probe env process_name = Raise e)
       /\ (psutil env = PsutilMissing
           \/ exists procs, psutil env = PsutilProcs procs
                /\ psutil_scan process_name procs = Ok []))) ->
  check_process_running env process_name = Ok (false, []).
Proof.
  unfold check_process_running, psutil_fallback.
  intros [-> | [[e ->] [-> | (procs & -> & ->)]]]; reflexivity.
Qed.

(** ** The standalone machine-id reset *)

Ltac step_monad :=
  cbn beta iota zeta delta [fst snd fs probed asked drawn negb set_fs app].

Ltac run_monad :=
  unfold bind, try_except, log, msgbox, emit, check_qoder_running, path_exists,
    raise, ret, uuid4, write_file, read_json, isChecked;
  step_monad.

(** The run of [reset_machine_id] when the probe finds nothing and the
    file can be written. *)
Lemma reset_machine_id_success env st c pids :
  is_Some (fs st !! qoder_support_dir) ->
  fs st !! machine_id_file = Some (File c) ->
  check_process_running (probes env (probed st)) "Qoder" = Ok (false, pids) ->
  deny env AWrite machine_id_file = false ->
  let new := uuid_str (uuid_at env (drawn st)) in
  reset_machine_id env st
  = (Ok tt,
     State (<[machine_id_file := File (Text new)]> (fs st))
           (S (probed st)) (asked st) (S (drawn st)),
     [Log "开始重置机器ID..."; Written machine_id_file (Text new);
      Log ("机器ID已重置为: " ++ new); MsgBox Information "成功" "机器ID重置完成"]).
Proof.
  intros [root Hroot] Hfile Hprobe Hdeny new. unfold reset_machine_id. run_monad.
  rewrite Hprobe. step_monad. rewrite Hroot. step_monad.
  rewrite Hfile. step_monad. rewrite Hfile, Hdeny. reflexivity.
Qed.


(** C6. A standalone machine-id reset whose data directory or
    machine-id file is missing reports a failure and writes nothing;
    when both are there (the probe finding nothing and the write being
    permitted) the file is overwritten with the bare text of a freshly
    generated UUID. *)
Theorem reset_machine_id_contract env st r st' evs :
  reset_machine_id env st = (r, st', evs) ->
  (fs st !! qoder_support_dir = None \/ fs st !! machine_id_file = None ->
     reports_failure r evs /\ mutations evs = [] /\ fs st' = fs st)
  /\ (forall c pids,
        is_Some (fs st !! qoder_support_dir) ->
        fs st !! machine_id_file = Some (File c) ->
        check_process_running (probes env (probed st)) "Qoder" = Ok (false, pids) ->
        deny env AWrite machine_id_file = false ->
        let new := uuid_str (uuid_at env (drawn st)) in
        r = Ok tt
        /\ fs st' = <[machine_id_file := File (Text new)]> (fs st)
        /\ mutations evs = [Written machine_id_file (Text new)]
        /\ In (MsgBox Information "成功" "机器ID重置完成") evs
        /\ is_uuid4_string new = true).
Proof.
  intros H. split.
  - intros Hmissing. revert H. unfold reset_machine_id, reports_failure. run_monad.
    destruct (check_process_running (probes env (probed st)) "Qoder") as [[[] pids]|e];
      step_monad.
    + intros [= <- <- <-]. simpl. repeat split; try reflexivity.
      * right. exists Critical, "错误", "请先关闭 Qoder 应用程序".
        split; [discriminate | simpl; auto].
      * intros title text. intuition discriminate.
    + destruct (fs st !! qoder_support_dir) as [root|] eqn:Hroot; step_monad.
      * destruct Hmissing as [Hm | Hm]; [discriminate|]. rewrite Hm. step_monad.
        intros [= <- <- <-]. simpl. repeat split; try reflexivity.
        -- right. exists Warning, "警告", "未找到机器ID文件".
           split; [discriminate | simpl; auto].
        -- intros title text. intuition discriminate.
      * intros [= <- <- <-]. simpl. repeat split; try reflexivity.
        -- right. eexists Critical, _, _. split; [discriminate | simpl; eauto].
        -- intros title text. intuition discriminate.
    + intros [= <- <- <-]. simpl. repeat split; try reflexivity.
      * left. eauto.
      * intros title text. intuition discriminate.
  - intros c pids Hroot Hfile Hprobe Hdeny new.
    rewrite (reset_machine_id_success env st c pids Hroot Hfile Hprobe Hdeny) in H.
    injection H as <- <- <-. repeat split; try reflexivity.
    + simpl. auto.
    + apply uuid4_str_valid.
Qed.



(** ** Missing identifier files inside a full reset *)




(** ** The telemetry reset *)






(** ** The chat purge *)












Lemma lookup_rmtree_other (f : gmap path node) (p q : path) :
  ¬ p `prefix_of` q ->
  filter (λ kv : path * node, ¬ p `prefix_of` kv.1) f !! q = f !! q.
Proof.
  intros Hq. apply option_eq. intros x. rewrite map_lookup_filter_Some. simpl. tauto.
Qed.

Lemma lookup_rmtree_under (f : gmap path node) (p q : path) :
  p `prefix_of` q ->
  filter (λ kv : path * node, ¬ p `prefix_of` kv.1) f !! q = None.
Proof.
  intros Hq. apply map_lookup_filter_None. right. intros x _ Hn. apply Hn. exact Hq.
Qed.






(** ** Walking a profile twice *)

Lemma sibling_not_prefix (base : path) (a b : string) :
  a <> b -> ¬ (base ++ [a])%list `prefix_of` (base ++ [b])%list.
Proof.
  intros Hne [k Hk]. rewrite <- app_assoc in Hk. apply app_inv_head in Hk.
  injection Hk as -> _. congruence.
Qed.

(** A removal that goes through: its one event, and what it does to
    the lookups. *)
Lemma remove_run env st how p :
  present st p = true -> removable env st how p ->
  exists st1,
    remove how p env st = (Ok tt, st1, [removal_event how p])
    /\ fs st1 !! p = None
    /\ (forall q, ¬ p `prefix_of` q -> fs st1 !! q = fs st !! q)
    /\ (forall q, fs st !! q = None -> fs st1 !! q = None).
Proof.
  unfold present, removable. intros Hp [Hdeny Hkind].
  destruct how; cbn [remove removal_event]; unfold rmtree, unlink;
    destruct (fs st !! p) as [[c|]|] eqn:E; try discriminate; try contradiction;
    rewrite Hdeny; eexists; (split; [reflexivity|]); cbn [fs set_fs].
  - split; [apply lookup_rmtree_under; reflexivity|]. split.
    + intros q Hq. apply lookup_rmtree_other, Hq.
    + intros q Hq. apply map_lookup_filter_None. left. exact Hq.
  - split; [apply lookup_delete_eq|]. split.
    + intros q Hq. apply lookup_delete_ne. intros ->. apply Hq. reflexivity.
    + intros q Hq. rewrite lookup_delete. case_decide; [reflexivity | exact Hq].
Qed.

Lemma clean_entry_absent env st how p on_ok on_fail :
  present st p = false ->
  clean_entry how p on_ok on_fail env st = (Ok Skipped, st, []).
Proof.
  intros Hp. unfold clean_entry.
  rewrite (bind_ok _ _ _ _ _ _ _ (path_exists_run _ env st)), Hp. reflexivity.
Qed.

Lemma clean_entry_removed env st how p on_ok on_fail :
  logger on_ok -> present st p = true -> removable env st how p ->
  exists st1 logs,
    clean_entry how p on_ok on_fail env st = (Ok Removed, st1, removal_event how p :: logs)
    /\ mutations logs = []
    /\ fs st1 !! p = None
    /\ (forall q, ¬ p `prefix_of` q -> fs st1 !! q = fs st !! q)
    /\ (forall q, fs st !! q = None -> fs st1 !! q = None).
Proof.
  intros (logs & Hlogs & Hok) Hp Hrm.
  destruct (remove_run env st how p Hp Hrm) as (st1 & Hrun & Hfacts).
  exists st1, logs. split; [|split; [exact Hlogs | exact Hfacts]].
  unfold clean_entry.
  rewrite (bind_ok _ _ _ _ _ _ _ (path_exists_run _ env st)), Hp. unfold try_except.
  rewrite (bind_ok _ _ _ _ _ _ _ Hrun), (bind_ok _ _ _ _ _ _ _ (Hok env st1)).
  cbn. rewrite app_nil_r. reflexivity.
Qed.

Lemma apply_profile_absent env st how base names on_ok on_fail :
  (forall name, In name names -> fs st !! (base ++ [name])%list = None) ->
  apply_profile how base names on_ok on_fail env st = (Ok (O, []), st, []).
Proof.
  induction names as [|name rest IH]; intros H; [reflexivity|]. cbn [apply_profile].
  assert (Hp : present st (base ++ [name])%list = false).
  { unfold present. rewrite (H name) by now left. reflexivity. }
  rewrite (bind_ok _ _ _ _ _ _ _ (clean_entry_absent env st how _ _ _ Hp)).
  rewrite (bind_ok _ _ _ _ _ _ _ (IH (fun n Hn => H n (or_intror Hn)))). reflexivity.
Qed.

(** A walk in which every removal goes through. *)
Lemma apply_profile_all env how base names on_ok on_fail :
  NoDup names -> (forall name, logger (on_ok name)) ->
  forall st,
    (forall name, In name names -> removable env st how (base ++ [name])%list) ->
    exists st1 t1,
      apply_profile how base names on_ok on_fail env st
        = (Ok (length (existing st base names), []), st1, t1)
      /\ mutations t1
         = map (fun name => removal_event how (base ++ [name])%list) (existing st base names)
      /\ (forall name, In name names -> fs st1 !! (base ++ [name])%list = None)
      /\ (forall q, fs st !! q = None -> fs st1 !! q = None).
Proof.
  intros Hnd Hlog. induction Hnd as [|name rest Hnew Hnd IH]; intros st Hrm.
  - exists st, []. repeat split; auto. intros name [].
  - cbn [apply_profile]. unfold existing. cbn [List.filter].
    destruct (present st (base ++ [name])%list) eqn:Hp.
    + destruct (clean_entry_removed env st how (base ++ [name])%list (on_ok name) (on_fail name)
                  (Hlog name) Hp (Hrm name (or_introl eq_refl)))
        as (sta & logs & Hrun & Hlogs & Hgone & Hframe & Hnone).
      assert (Hsib : forall n, In n rest -> fs sta !! (base ++ [n])%list = fs st !! (base ++ [n])%list).
      { intros n Hn. apply Hframe, sibling_not_prefix. intros ->. apply Hnew.
        apply list_elem_of_In. exact Hn. }
      destruct (IH sta) as (st1 & t1 & Hrest & Hmut & Hgone' & Hnone').
      { intros n Hn. destruct (Hrm n (or_intror Hn)) as [Hd Hk].
        split; [exact Hd|]. rewrite (Hsib n Hn). exact Hk. }
      assert (Hex : existing sta base rest = existing st base rest).
      { unfold existing. apply List.filter_ext_in. intros n Hn. unfold present.
        rewrite (Hsib n Hn). reflexivity. }
      rewrite Hex in Hrest, Hmut. fold (existing st base rest).
      exists st1, ((removal_event how (base ++ [name])%list :: logs) ++ t1)%list.
      rewrite (bind_ok _ _ _ _ _ _ _ Hrun), (bind_ok _ _ _ _ _ _ _ Hrest).
      unfold ret. cbn [fst snd length]. rewrite app_nil_r.
      split; [reflexivity|]. split; [|split].
      * rewrite mutations_app. unfold mutations at 1. cbn [List.filter].
        assert (is_mutation (removal_event how (base ++ [name])%list) = true) as ->
          by (destruct how; reflexivity).
        fold (mutations logs). rewrite Hlogs, Hmut. reflexivity.
      * intros n [<- | Hn]; [apply Hnone', Hgone | apply Hgone', Hn].
      * intros q Hq. apply Hnone', Hnone, Hq.
    + destruct (IH st) as (st1 & t1 & Hrest & Hmut & Hgone' & Hnone').
      { intros n Hn. apply Hrm. now right. }
      fold (existing st base rest). exists st1, t1.
      rewrite (bind_ok _ _ _ _ _ _ _ (clean_entry_absent env st how _ _ _ Hp)).
      rewrite (bind_ok _ _ _ _ _ _ _ Hrest).
      unfold ret. cbn [fst snd length app]. rewrite app_nil_r.
      split; [destruct (length (existing st base rest)); reflexivity|].
      split; [exact Hmut|]. split.
      * intros n [<- | Hn]; [|apply Hgone', Hn]. apply Hnone'.
        unfold present in Hp. destruct (fs st !! (base ++ [name])%list); [discriminate|reflexivity].
      * exact Hnone'.
Qed.

Lemma profile_names_distinct (p : profile) : NoDup (profile_names p).
Proof. destruct p; apply (bool_decide_unpack _); vm_compute; exact I. Qed.

Lemma logger_quiet name : logger (quiet name).
Proof. exists []. split; [reflexivity | intros; reflexivity]. Qed.

Lemma logger_log_ok prefix name : logger (log_ok prefix name).
Proof.
  exists [Log ("   已清除: " ++ prefix ++ name)]. split; [reflexivity | intros; reflexivity].
Qed.

(** C9. Take any of the program's profile loops and a state in which
    every listed path that exists can be removed. The walk returns the
    number of listed paths that existed and no error; it removes those
    paths, in order, and nothing else; afterwards none of the listed
    paths exists, and a second walk from the resulting state removes
    nothing, reports nothing and leaves no trace. *)
Theorem apply_profile_idempotent (p : profile) env st :
  (forall name, In name (profile_names p) ->
     removable env st (profile_how p) (profile_base p ++ [name])%list%list) ->
  exists st1 t1,
    run_profile p env st
      = (Ok (length (existing st (profile_base p) (profile_names p)), []), st1, t1)
    /\ mutations t1
       = map (fun name => removal_event (profile_how p) (profile_base p ++ [name])%list)
             (existing st (profile_base p) (profile_names p))
    /\ (forall name, In name (profile_names p) ->
          present st1 (profile_base p ++ [name])%list = false)
    /\ run_profile p env st1 = (Ok (O, []), st1, []).
Proof.
  intros Hrm.
  assert (Hgen : forall on_ok on_fail, (forall name, logger (on_ok name)) ->
    exists st1 t1,
      apply_profile (profile_how p) (profile_base p) (profile_names p) on_ok on_fail env st
        = (Ok (length (existing st (profile_base p) (profile_names p)), []), st1, t1)
      /\ mutations t1
         = map (fun name => removal_event (profile_how p) (profile_base p ++ [name])%list)
               (existing st (profile_base p) (profile_names p))
      /\ (forall name, In name (profile_names p) ->
            present st1 (profile_base p ++ [name])%list = false)
      /\ apply_profile (profile_how p) (profile_base p) (profile_names p) on_ok on_fail env st1
         = (Ok (O, []), st1, [])).
  { intros on_ok on_fail Hlog.
    destruct (apply_profile_all env (profile_how p) (profile_base p) (profile_names p)
                on_ok on_fail (profile_names_distinct p) Hlog st Hrm)
      as (st1 & t1 & Hrun & Hmut & Hgone & _).
    exists st1, t1. split; [exact Hrun|]. split; [exact Hmut|]. split.
    - intros name Hn. unfold present. rewrite (Hgone name Hn). reflexivity.
    - apply apply_profile_absent. exact Hgone. }
  destruct p; cbv [run_profile]; apply Hgen; intros name;
    first [apply logger_quiet | apply logger_log_ok].
Qed.

(** * The statements at work on sample surroundings *)

Lemma run_triple {A} (x : outcome A * state * list event) : x = (x.1.1, x.1.2, x.2).
Proof. destruct x as [[? ?] ?]. reflexivity. Qed.

(** The end-to-end example: a full reset with chat preserved replaces
    the machine id, renews the two telemetry keys while keeping the
    others, and removes the cache directory. *)
Example full_reset_end_to_end :
  let st' := (perform_full_reset true sample_env sample_state).1.2 in
  (perform_full_reset true sample_env sample_state).1.1 = Ok tt
  /\ fs st' !! machine_id_file
     = Some (File (Text "00000000-0000-4000-8000-000000000005"))
  /\ (exists d, fs st' !! storage_json_file = Some (File (Json (JDict d)))
        /\ dict_get "other" d = Some (JInt 1)
        /\ dict_get "telemetry.devDeviceId" d
           = Some (JStr "00000000-0000-4000-8000-000000000007"))
  /\ fs st' !! ["Cache"] = None
  /\ fs st' !! ["Cache"; "data_0"] = None.
Proof.
  vm_compute. repeat split. eexists. repeat split.
Qed.

Lemma no_mutation_while_running_witness :
  check_process_running (probes busy_env 0) "Qoder" = Ok (true, ["4242"])
  /\ mutations (run FullReset busy_env sample_state).2 = []
  /\ fs (run FullReset busy_env sample_state).1.2 = fs sample_state.
Proof.
  split; [reflexivity|].
  apply (no_mutation_while_running FullReset busy_env sample_state ["4242"] _ _ _
           eq_refl (run_triple _)).
  exists ["4242"]. reflexivity.
Defined.




Lemma reset_machine_id_contract_witness :
  fs (reset_machine_id sample_env sample_state).1.2
  = <[machine_id_file := File (Text (uuid_str (uuid_at sample_env 0)))]> (fs sample_state)
  /\ mutations (reset_machine_id sample_env bare_state).2 = []
  /\ fs (reset_machine_id sample_env bare_state).1.2 = fs bare_state.
Proof.
  split.
  - apply (proj2 (reset_machine_id_contract sample_env sample_state _ _ _ (run_triple _))
             (Text "abc") []); try reflexivity. exists Dir. reflexivity.
  - apply (proj1 (reset_machine_id_contract sample_env bare_state _ _ _ (run_triple _))).
    right. reflexivity.
Defined.


Lemma apply_profile_idempotent_witness :
  exists st1 t1,
    run_profile CacheProfile sample_env sample_state = (Ok (1%nat, []), st1, t1)
    /\ mutations t1 = [TreeRemoved ["Cache"]]
    /\ run_profile CacheProfile sample_env st1 = (Ok (O, []), st1, []).
Proof.
  destruct (apply_profile_idempotent CacheProfile sample_env sample_state)
    as (st1 & t1 & Hrun & Hmut & _ & Hagain).
  - intros name Hn. split; [reflexivity|].
    repeat (destruct Hn as [<- | Hn]; [vm_compute; exact I|]). destruct Hn.
  - exists st1, t1. split; [exact Hrun|]. split; [exact Hmut | exact Hagain].
Defined.


(** * Further properties of the program *)

(** ** Where the data directory is *)


(** ** More on the process probe *)

Lemma split_on_nonempty sep s : split_on sep s <> [].
Proof.
  destruct s as [|c s]; cbn [split_on]; [discriminate|].
  destruct (Ascii.eqb c sep); [discriminate|].
  destruct (split_on sep s); discriminate.
Qed.

(** X2. The answer of the probe is coherent with its list of process
    ids: "not running" always comes with the empty list, and "running"
    with an empty list can only come from the [tasklist] branch. *)
Theorem probe_pid_list env name running pids :
  check_process_running env name = Ok (running, pids) ->
  (running = false -> pids = [])
  /\ (running = true -> pids = [] -> system env = Windows).
Proof.
  unfold check_process_running, psutil_fallback, native_probe.
  destruct (system env) eqn:Hsys.
  1,2: destruct (subprocess_run env ["pgrep"; "-f"; name]) as [c|e];
    [ destruct (returncode c =? 0); intros [= <- <-];
      (split; [intros; try discriminate; reflexivity
              | intros Hr H;
                first [discriminate Hr | exfalso; exact (split_on_nonempty _ _ H)]])
    | destruct (psutil env) as [|procs];
      [ intros [= <- <-]; split; [reflexivity | discriminate]
      | destruct (psutil_scan name procs) as [[|pid rest]|[]]; intros [= <- <-];
        (split; [intros; try discriminate; reflexivity | intros; discriminate]) ] ].
  - destruct (subprocess_run env _) as [c|e].
    + destruct ((returncode c =? 0) && py_in (lower name) (lower (stdout c)));
        intros [= <- <-]; (split; [intros; try discriminate; reflexivity | reflexivity]).
    + destruct (psutil env) as [|procs];
        [ intros [= <- <-]; split; [reflexivity | discriminate]
        | destruct (psutil_scan name procs) as [[|pid rest]|[]]; intros [= <- <-];
          (split; [intros; try discriminate; reflexivity | intros; discriminate]) ].
  - intros [= <- <-]. split; [reflexivity | discriminate].
Qed.

(** X3. The probe lets an exception out only when the native mechanism
    raised and the scan of [psutil]'s process list raised something
    other than [ImportError]; the exception is the scan's. *)
Theorem probe_raises_only_from_scan env name e :
  check_process_running env name = Raise e ->
  (exists e0, native_probe env name = Raise e0)
  /\ exists procs, psutil env = PsutilProcs procs
       /\ psutil_scan name procs = Raise e /\ e <> ImportError.
Proof.
  unfold check_process_running, psutil_fallback.
  destruct (native_probe env name) as [[r|]|e0]; try discriminate.
  destruct (psutil env) as [|procs]; try discriminate.
  destruct (psutil_scan name procs) as [[|pid pids]|e1] eqn:Hs; try discriminate.
  destruct e1; try discriminate; intros [= <-];
    (split; [eauto | exists procs; repeat split; auto; discriminate]).
Qed.

(** X4. When running the native command does not raise, [psutil] is
    never consulted: the answer is the same whatever it would list. A
    command that finds nothing therefore settles the answer. *)
Theorem probe_ignores_psutil_when_native_ran sys run ps1 ps2 name :
  (forall argv e, run argv <> Raise e) ->
  check_process_running (ProbeEnv sys run ps1) name
  = check_process_running (ProbeEnv sys run ps2) name.
Proof.
  intros Hrun. unfold check_process_running, native_probe. cbn [system subprocess_run].
  destruct sys; try reflexivity;
    match goal with
    | |- context [run ?argv] =>
        destruct (run argv) as [c|e] eqn:E; [|exfalso; exact (Hrun _ _ E)]
    end;
    repeat match goal with |- context [if ?b then _ else _] => destruct b end;
    reflexivity.
Qed.



(** ** Operations: what escapes, what needs consent, what is touched *)

Lemma replay_untouched (q : path) (evs : list event) (f : gmap path node) :
  Forall (untouched q) evs -> replay evs f !! q = f !! q.
Proof.
  intros H. revert f. induction H as [|e evs He _ IH]; intros f; [reflexivity|].
  unfold replay. cbn [fold_left]. fold (replay evs (apply_event e f)). rewrite IH.
  destruct e; cbn [apply_event untouched] in *; try reflexivity.
  - apply lookup_insert_ne. exact He.
  - apply lookup_delete_ne. exact He.
  - apply lookup_rmtree_other. exact He.
Qed.

Lemma mutations_none (evs : list event) :
  Forall (fun e => is_mutation e = false) evs -> mutations evs = [].
Proof.
  induction 1 as [|e evs He _ IH]; [reflexivity|].
  unfold mutations in *. cbn [List.filter]. rewrite He. exact IH.
Qed.

(** X6. An exception raised by the first probe leaves each of the four
    operations at once: nothing but the opening log line has happened,
    no dialog is shown and no file is touched. *)
Theorem raising_probe_aborts_operation (op : operation) env st e :
  check_process_running (probes env (probed st)) "Qoder" = Raise e ->
  exists line, run op env st = (Raise e, after_probe st, [Log line]).
Proof.
  intros H. destruct op; cbn [run];
    unfold reset_machine_id, reset_telemetry, deep_identity_cleanup, one_click_reset,
      running_guard;
    run_monad; rewrite H; eexists; reflexivity.
Qed.

Section Returning.
Context (env : environment).

Lemma returns_safe {A} (m : M A) : safe m -> returns env m.
Proof. intros H st. apply H. Qed.

Lemma returns_bind {A B} (m : M A) (k : A -> M B) :
  returns env m -> (forall a, returns env (k a)) -> returns env (bind m k).
Proof.
  intros Hm Hk st. destruct (Hm st) as (a & st1 & e1 & H1).
  destruct (Hk a st1) as (b & st2 & e2 & H2).
  exists b, st2, (e1 ++ e2)%list. rewrite (bind_ok _ _ _ _ _ _ _ H1), H2. reflexivity.
Qed.

Lemma returns_try {A} (body : M A) (handler : exn -> M A) :
  (forall e, returns env (handler e)) -> returns env (try_except body handler).
Proof.
  intros Hh st. unfold try_except. destruct (body env st) as [[[a|e] st1] e1].
  - exists a, st1, e1. reflexivity.
  - destruct (Hh e st1) as (b & st2 & e2 & H2). rewrite H2.
    exists b, st2, (e1 ++ e2)%list. reflexivity.
Qed.

Lemma returns_check : probes_return env -> returns env check_qoder_running.
Proof.
  intros H st. destruct (H (probed st)) as [r Hr].
  unfold check_qoder_running. rewrite Hr. eauto.
Qed.

Lemma returns_question title text : returns env (question title text).
Proof. intros st. eexists _, _, _. reflexivity. Qed.

Lemma returns_isChecked : returns env isChecked.
Proof. intros st. eexists _, _, _. reflexivity. Qed.
End Returning.

Ltac returning Hp :=
  repeat first
    [ apply returns_check; exact Hp
    | apply returns_question | apply returns_isChecked
    | apply returns_try; intros ?
    | apply returns_bind; [| intros ?]
    | match goal with
      | |- returns _ (if ?b then _ else _) => destruct b
      end
    | apply returns_safe; safety ].

(** X7. Apart from the probe, nothing makes an operation raise: in
    surroundings where no probe raises, each of the four operations
    returns normally, whatever the file system holds and whatever the
    system refuses. *)
Theorem operations_return (op : operation) env st :
  probes_return env -> exists st' evs, run op env st = (Ok tt, st', evs).
Proof.
  intros Hp.
  assert (H : returns env (run op)).
  { destruct op; cbn [run];
      unfold reset_machine_id, reset_telemetry, deep_identity_cleanup, one_click_reset,
        running_guard; returning Hp. }
  destruct (H st) as ([] & st' & evs & Hrun). eauto.
Qed.

Lemma running_guard_silent env st r st' evs :
  running_guard env st = (r, st', evs) -> mutations evs = [].
Proof.
  intros H. apply mutations_none.
  assert (T : tracks (fun e => is_mutation e = false) running_guard).
  { unfold running_guard. track; reflexivity. }
  apply T in H. tauto.
Qed.

(** X8. Deep cleanup and full reset mutate nothing unless the operator
    answered Yes to their confirmation dialog. *)
Theorem mutation_requires_confirmation (op : operation) title env st r st' evs :
  confirm_title op = Some title ->
  run op env st = (r, st', evs) ->
  mutations evs <> [] ->
  exists text, In (Question title text true) evs.
Proof.
  intros Ht H Hm.
  assert (Hno : mutations evs = [] -> False) by (intros E; exact (Hm E)).
  destruct op; try discriminate Ht; injection Ht as <-; cbn [run] in H;
    unfold deep_identity_cleanup, one_click_reset in H;
    (apply bind_inv in H as [(e & H & _) | (u & st1 & e1 & e2 & Hl & H & ->)];
       [discriminate H|]);
    injection Hl as <- <-; subst e1;
    (apply bind_inv in H as [(e & H & _) | (go & st2 & e3 & e4 & Hg & H & ->)];
       [ exfalso; apply Hno; rewrite mutations_app, (running_guard_silent _ _ _ _ _ H);
         reflexivity |]);
    pose proof (running_guard_silent _ _ _ _ _ Hg) as Hsilent;
    (destruct go; cbn [negb] in H;
       [| injection H as <- <- <-; exfalso; apply Hno;
          rewrite !mutations_app, Hsilent; reflexivity]).
  - apply bind_inv in H as [(e & H & _) | (reply & st3 & e5 & e6 & Hq & H & ->)];
      [discriminate H|].
    injection Hq as <- <- <-. destruct (replies env (asked st2)); cbn [negb] in H.
    + eexists. apply in_or_app. right. apply in_or_app. right.
      apply in_or_app. left. left. reflexivity.
    + injection H as <- <- <-. exfalso. apply Hno.
      rewrite !mutations_app, Hsilent. reflexivity.
  - apply bind_inv in H as [(e & H & _) | (chk & st3 & e5 & e6 & Hc & H & ->)];
      [discriminate H|].
    injection Hc as <- <- <-.
    apply bind_inv in H as [(e & H & _) | (reply & st4 & e7 & e8 & Hq & H & ->)];
      [discriminate H|].
    injection Hq as <- <- <-. destruct (replies env (asked st2)); cbn [negb] in H.
    + eexists. apply in_or_app. right. apply in_or_app. right.
      apply in_or_app. right. apply in_or_app. left. left. reflexivity.
    + injection H as <- <- <-. exfalso. apply Hno.
      rewrite !mutations_app, Hsilent. reflexivity.
Qed.

Lemma tracks_reset_machine_id : tracks (allowed SMachineId) reset_machine_id.
Proof. unfold reset_machine_id. track; try exact I; reflexivity. Qed.

Lemma tracks_reset_telemetry : tracks (allowed STelemetry) reset_telemetry.
Proof.
  unfold reset_telemetry. apply tracks_bind; [track; exact I | intros _].
  apply tracks_bind; [track | intros r]. destruct (fst r); [track; exact I|].
  apply tracks_try; [|intros e; track; exact I].
  apply tracks_bind; [track | intros found]. destruct (negb found); [track|].
  apply tracks_bind; [apply tracks_rewrite_telemetry; reflexivity | intros ids].
  track; exact I.
Qed.

(** X9. A standalone reset writes its own file and nothing else: every
    mutation in its trace is a write to that file, and whatever is found
    at any other path is found there afterwards. *)
Theorem standalone_reset_touches_one_file (op : operation) target env st r st' evs :
  own_file op = Some target ->
  run op env st = (r, st', evs) ->
  Forall (fun e => is_mutation e = true -> exists c, e = Written target c) evs
  /\ forall q, q <> target -> fs st' !! q = fs st !! q.
Proof.
  intros Ht H.
  assert (T : Forall (fun e => match e with
                               | Written p _ => p = target
                               | Unlinked _ | TreeRemoved _ => False
                               | _ => True
                               end) evs /\ fs st' = replay evs (fs st)).
  { destruct op; try discriminate Ht; injection Ht as <-; cbn [run] in H.
    - apply tracks_reset_machine_id in H as [F E]. split; [|exact E].
      eapply Forall_impl; [exact F|]. intros [] He; cbn in *; try tauto.
      destruct c; tauto.
    - apply tracks_reset_telemetry in H as [F E]. split; [|exact E].
      eapply Forall_impl; [exact F|]. intros [] He; cbn in *; try tauto.
      destruct c; tauto. }
  destruct T as [F E]. split.
  - eapply Forall_impl; [exact F|]. intros [] He Hm; try discriminate Hm; try contradiction.
    subst p. eauto.
  - intros q Hq. rewrite E. apply replay_untouched.
    eapply Forall_impl; [exact F|]. intros [] He; cbn in *; try tauto. congruence.
Qed.

(** X10. A telemetry reset on a [storage.json] that cannot be read or
    does not decode to a dictionary reports the failure in a dialog and
    leaves every file as it was. *)
Theorem reset_telemetry_rejects_bad_file env st c pids :
  check_process_running (probes env (probed st)) "Qoder" = Ok (false, pids) ->
  fs st !! storage_json_file = Some (File c) ->
  (deny env ARead storage_json_file = true \/ forall d, c <> Json (JDict d)) ->
  exists st' evs,
    reset_telemetry env st = (Ok tt, st', evs)
    /\ reports_failure (Ok tt) evs
    /\ mutations evs = []
    /\ fs st' = fs st.
Proof.
  intros Hprobe Hfile Hbad.
  assert (Hfail : forall e text,
    reports_failure (Ok tt)
      [Log "开始重置遥测数据..."; Log ("重置遥测数据失败: " ++ exn_text e);
       MsgBox Critical "错误" text]).
  { intros e text. split.
    - right. exists Critical, "错误", text. split; [discriminate|]. do 2 right. left. reflexivity.
    - intros title text' [H | [H | [H | []]]]; discriminate H. }
  unfold reset_telemetry, rewrite_telemetry, generate_machine_id_hash, generate_device_id,
    set_item.
  run_monad. rewrite Hprobe. step_monad. rewrite Hfile. step_monad. rewrite Hfile.
  destruct (deny env ARead storage_json_file) eqn:Hr.
  { eexists _, _. split; [reflexivity|]. split; [apply Hfail|]. split; reflexivity. }
  destruct Hbad as [Hbad | Hbad]; [discriminate Hbad|].
  destruct c as [s | j].
  { eexists _, _. split; [reflexivity|]. split; [apply Hfail|]. split; reflexivity. }
  destruct j; try (exfalso; eapply Hbad; reflexivity);
    (eexists _, _; split; [reflexivity|]; split; [apply Hfail|]; split; reflexivity).
Qed.

(** X11. A full reset is not all-or-nothing: when [storage.json] is not
    a JSON document, the reset raises in its second step, after the
    machine id has been replaced and before any cleanup. *)
Theorem full_reset_stops_after_machine_id preserve_chat env st c s :
  is_Some (fs st !! qoder_support_dir) ->
  fs st !! machine_id_file = Some (File c) ->
  deny env AWrite machine_id_file = false ->
  fs st !! storage_json_file = Some (File (Text s)) ->
  deny env ARead storage_json_file = false ->
  let new := Text (uuid_str (uuid_at env (drawn st))) in
  perform_full_reset preserve_chat env st
  = (Raise JSONDecodeError,
     State (<[machine_id_file := File new]> (fs st)) (probed st) (asked st) (S (drawn st)),
     [Log "1. 重置机器ID..."; Written machine_id_file new; Log "   机器ID已重置";
      Log "2. 重置遥测数据..."]).
Proof.
  intros Hroot Hmid Hw Hjson Hr new.
  rewrite (perform_full_reset_found _ _ _ Hroot).
  assert (H1 : step_machine_id env st
               = (Ok tt,
                  State (<[machine_id_file := File new]> (fs st)) (probed st) (asked st)
                        (S (drawn st)),
                  [Log "1. 重置机器ID..."; Written machine_id_file new;
                   Log "   机器ID已重置"])).
  { unfold step_machine_id. run_monad. rewrite Hmid. step_monad. rewrite Hmid, Hw.
    reflexivity. }
  rewrite (bind_ok _ _ _ _ _ _ _ H1).
  assert (H2 : step_telemetry env
                 (State (<[machine_id_file := File new]> (fs st)) (probed st) (asked st)
                        (S (drawn st)))
               = (Raise JSONDecodeError,
                  State (<[machine_id_file := File new]> (fs st)) (probed st) (asked st)
                        (S (drawn st)),
                  [Log "2. 重置遥测数据..."])).
  { unfold step_telemetry, rewrite_telemetry. run_monad.
    rewrite lookup_insert_ne by discriminate. rewrite Hjson. step_monad.
    rewrite lookup_insert_ne by discriminate. rewrite Hjson, Hr. reflexivity. }
  rewrite (bind_raise _ _ _ _ _ _ _ H2). reflexivity.
Qed.

Ltac known_name Hin := cbn in Hin; intuition (first [discriminate | congruence]).

Lemma profile_spares_user base names rest p :
  in_profile base names p ->
  (base = qoder_support_dir /\ ~ In "User" names
   \/ exists x, base = [x] /\ x <> "User") ->
  ¬ p `prefix_of` ("User" :: rest).
Proof.
  intros (name & Hin & ->) Hb [k Hk].
  destruct Hb as [[-> Hn] | (x & -> & Hx)]; cbn in Hk; injection Hk as Hhead _.
  - subst name. exact (Hn Hin).
  - congruence.
Qed.

Lemma sock_outside_user rest : is_sock ("User" :: rest) = false.
Proof. destruct rest; reflexivity. Qed.

Lemma prefix_of_refl_path (p : path) : p `prefix_of` p.
Proof. exists []. now rewrite app_nil_r. Qed.

(** Outside the chat step, nothing below [User] is touched, except that
    the telemetry step rewrites [storage.json]. *)
Lemma allowed_spares_user (s : stage) (e : event) (q : path) :
  s <> SChat -> in_user_dir q -> (s = STelemetry -> q <> storage_json_file) ->
  allowed s e -> untouched q e.
Proof.
  intros Hs [rest ->] Hq. destruct e as [| | |p c|p|p]; cbn [allowed untouched]; try (intros; exact I).
  - destruct s, c; try contradiction; intros ->; try discriminate.
    intros E. apply Hq; [reflexivity | symmetry; exact E].
  - intros H Hp. subst p.
    assert (Hpre : ¬ ("User" :: rest) `prefix_of` ("User" :: rest) -> False)
      by (intros Hn; apply Hn, prefix_of_refl_path).
    apply Hpre. clear Hpre.
    destruct s; try contradiction.
    + eapply profile_spares_user; [exact H|]. left. split; [reflexivity|]. intros Hin. known_name Hin.
    + eapply profile_spares_user; [exact H|]. right. exists "Network". split; [reflexivity | discriminate].
    + destruct H as [H | [H | H]].
      * eapply profile_spares_user; [exact H|]. right. exists "SharedClientCache".
        split; [reflexivity | discriminate].
      * eapply profile_spares_user; [exact H|]. left. split; [reflexivity|]. intros Hin. known_name Hin.
      * rewrite sock_outside_user in H. discriminate H.
  - destruct s; try contradiction; intros H.
    + eapply profile_spares_user; [exact H|]. left. split; [reflexivity|]. intros Hin. known_name Hin.
    + eapply profile_spares_user; [exact H|]. left. split; [reflexivity|]. intros Hin. known_name Hin.
    + destruct H as [H | [-> | H]].
      * eapply profile_spares_user; [exact H|]. right. exists "SharedClientCache".
        split; [reflexivity | discriminate].
      * intros [k Hk]. discriminate Hk.
      * eapply profile_spares_user; [exact H|]. left. split; [reflexivity|]. intros Hin. known_name Hin.
Qed.

(** X12. With chat preserved, a full reset leaves everything below the
    [User] directory as it was, [storage.json] apart: workspaces, their
    chat sessions and the history are found afterwards as before,
    whether the reset returns or raises. *)
Theorem full_reset_preserving_chat_spares_user_dir env st r st' evs q :
  perform_full_reset true env st = (r, st', evs) ->
  in_user_dir q -> q <> storage_json_file ->
  fs st' !! q = fs st !! q.
Proof.
  intros H Hu Hq.
  assert (Hstage : forall (s : stage) {A} (m : M A),
            s <> SChat -> tracks (allowed s) m -> tracks (untouched q) m).
  { intros s A m Hs. apply tracks_weaken. intros e.
    apply allowed_spares_user; auto. }
  assert (T : tracks (untouched q) (perform_full_reset true)).
  { unfold perform_full_reset, cleanup_steps.
    apply tracks_bind; [track | intros found]. destruct (negb found); [track|].
    apply tracks_bind; [apply (Hstage SMachineId); [discriminate | apply tracks_step_machine_id] | intros _].
    apply tracks_bind; [apply (Hstage STelemetry); [discriminate | apply tracks_step_telemetry] | intros _].
    apply tracks_bind; [apply (Hstage SCache); [discriminate | apply tracks_step_cache] | intros _].
    apply tracks_bind; [apply (Hstage SIdentityFiles); [discriminate | apply tracks_step_identity_files] | intros a].
    apply tracks_bind; [apply (Hstage SNetworkFiles); [discriminate | apply tracks_step_network_files] | intros b].
    apply tracks_bind; [apply (Hstage SStorageDirs); [discriminate | apply tracks_step_storage_dirs] | intros c].
    apply tracks_bind; [track; exact I | intros _].
    apply tracks_bind; [apply (Hstage SAdvanced); [discriminate | apply tracks_step_advanced] | intros _].
    unfold step_chat. track; exact I. }
  apply T in H as [F ->]. apply replay_untouched, F.
Qed.

Lemma tracks_deep_identity_cleanup : tracks (allowed SAdvanced) deep_identity_cleanup.
Proof.
  unfold deep_identity_cleanup, running_guard.
  apply tracks_bind; [track; exact I | intros _].
  apply tracks_bind; [track; try exact I; intros; exact I | intros go].
  destruct (negb go); [track|].
  apply tracks_bind; [track; intros; exact I | intros reply].
  destruct (negb reply); [track; exact I|].
  apply tracks_try; [|intros e; track; exact I].
  apply tracks_bind; [track | intros found]. destruct (negb found); [track|].
  do 3 (apply tracks_bind; [track; exact I | intros _]).
  apply tracks_bind; [apply tracks_advanced | intros _].
  track; exact I.
Qed.

(** X13. Deep cleanup never touches the machine id, anything below
    [User] ([storage.json] included), or the [SharedClientCache]
    directory itself, whose inner files it clears. *)
Theorem deep_cleanup_frame env st r st' evs q :
  deep_identity_cleanup env st = (r, st', evs) ->
  q = machine_id_file \/ q = shared_cache \/ in_user_dir q ->
  fs st' !! q = fs st !! q.
Proof.
  intros H Hq. apply tracks_deep_identity_cleanup in H as [F ->].
  apply replay_untouched. eapply Forall_impl; [exact F|]. intros e He.
  destruct Hq as [Hq | [Hq | Hu]];
    [| | apply (allowed_spares_user SAdvanced); auto; discriminate];
    subst q; destruct e as [| | |p c|p|p]; cbn [allowed untouched] in *;
    try exact I; try contradiction.
  all: unfold machine_id_file, shared_cache, qoder_support_dir in *.
  all: first
    [ destruct He as [(n & Hin & ->) | [(n & Hin & ->) | Hs]]; intros E; cbn in E;
      [ discriminate E
      | injection E as E; subst n; known_name Hin
      | subst p; discriminate Hs ]
    | destruct He as [(n & Hin & ->) | [-> | (n & Hin & ->)]]; intros [k Hk]; cbn in Hk;
      [ discriminate Hk
      | discriminate Hk
      | injection Hk as Hk _; subst n; known_name Hin ] ].
Qed.

(** ** More on the chat purge *)

(** X14. When [User/workspaceStorage] exists but cannot be listed (it
    is a regular file, or listing is refused), the chat purge gives up at
    once: it logs one failure line and removes nothing, neither the
    history, nor the session storage, nor any key of [storage.json]. *)
Theorem chat_purge_gives_up_on_unlistable_workspace env st :
  (exists c, fs st !! workspace_storage = Some (File c))
  \/ (fs st !! workspace_storage = Some Dir /\ deny env AList workspace_storage = true) ->
  exists e,
    clear_chat_history env st
    = (Ok tt, st, [Log ("   清除对话记录失败: " ++ exn_text e)]).
Proof.
  intros H. unfold clear_chat_history, clear_chat_dirs, iterdir. run_monad.
  destruct H as [[c H] | [H Hd]]; rewrite H; step_monad; rewrite H; rewrite ?Hd;
    eexists; reflexivity.
Qed.




(** ** A profile walk with refusals *)








(** ** Without a data directory *)

(** X17. Without a data directory, deep cleanup and full reset change
    nothing and never announce completion, whatever the probes find and
    whatever the operator answers. *)
Theorem no_data_dir_no_cleanup (op : operation) title env st r st' evs :
  confirm_title op = Some title ->
  fs st !! qoder_support_dir = None ->
  run op env st = (r, st', evs) ->
  mutations evs = [] /\ fs st' = fs st
  /\ forall text, ~ In (MsgBox Information "完成" text) evs.
Proof.
  intros Ht Hroot. 
  destruct op; try discriminate Ht; clear Ht; cbn [run];
    unfold deep_identity_cleanup, one_click_reset, running_guard, perform_full_reset,
      question;
    run_monad;
    repeat (step_monad; rewrite ?Hroot;
            match goal with
            | |- context [match check_process_running ?x ?y with _ => _ end] =>
                destruct (check_process_running x y) as [[[] ?]|?]
            | |- context [replies env ?n] => destruct (replies env n)
            end);
    step_monad; rewrite ?Hroot; step_monad;
    intros [= <- <- <-];
    (split; [reflexivity | split; [reflexivity|]]);
    intros text Hin; cbn in Hin; intuition discriminate.
Qed.

(** ** The operations that only look *)

Lemma tracks_read_text P raw p : tracks P (read_text raw p).
Proof.
  apply tracks_quiet. intros env st. unfold read_text.
  destruct (fs st !! p) as [[c|]|]; try destruct (deny env ARead p); split; reflexivity.
Qed.

Lemma tracks_lift {A} P (r : outcome A) : tracks P (lift r).
Proof. apply tracks_quiet. intros; split; reflexivity. Qed.

Lemma tracks_count_existing P ps : tracks P (count_existing ps).
Proof.
  induction ps as [|p rest IH]; cbn [count_existing]; [apply tracks_ret|].
  apply tracks_bind; [apply tracks_path_exists | intros found].
  apply tracks_bind; [exact IH | intros n; apply tracks_ret].
Qed.

Lemma tracks_initialize_status_check raw show :
  tracks is_log (initialize_status_check raw show).
Proof.
  unfold initialize_status_check, status_machine_id, status_telemetry, status_counts.
  repeat first
    [ apply tracks_read_text | apply tracks_lift | apply tracks_count_existing
    | track_leaf
    | apply tracks_bind; [| intros ?]
    | apply tracks_try; [| intros ?]
    | match goal with
      | |- tracks _ (if ?b then _ else _) => destruct b
      end ];
    exact I.
Qed.

Lemma is_log_silent (evs : list event) : Forall is_log evs -> mutations evs = [].
Proof.
  intros H. apply mutations_none. eapply Forall_impl; [exact H|].
  intros []; cbn; intros He; try contradiction; reflexivity.
Qed.

(** X18. The status check is harmless in all surroundings: it returns
    normally even when the probe raises (the probe sits inside its
    [try]), it leaves nothing but log lines, no dialog and no question,
    and it changes no file. *)
Theorem status_check_is_harmless raw show env st :
  exists st' evs,
    initialize_status_check raw show env st = (Ok tt, st', evs)
    /\ Forall is_log evs
    /\ mutations evs = []
    /\ fs st' = fs st.
Proof.
  assert (Hsafe : safe (initialize_status_check raw show)).
  { unfold initialize_status_check. apply safe_try. intros e. safety. }
  destruct (Hsafe env st) as ([] & st' & evs & Hrun). exists st', evs.
  split; [exact Hrun|]. apply tracks_initialize_status_check in Hrun as [F ->].
  split; [exact F|]. split; [apply is_log_silent, F|].
  apply replay_silent, is_log_silent, F.
Qed.

(** X19. The close request closes nothing: it changes no file and asks
    no question; when the probe returns it tells the operator what it
    found in one information dialog, and when the probe raises the
    exception leaves it before any dialog. *)
Theorem close_request_only_looks env st r st' evs :
  close_qoder env st = (r, st', evs) ->
  fs st' = fs st
  /\ Forall is_log_or_box evs
  /\ match check_process_running (probes env (probed st)) "Qoder" with
     | Ok _ =>
         r = Ok tt
         /\ exists title text,
              List.filter (fun e => negb (match e with Log _ => true | _ => false end)) evs
              = [MsgBox Information title text]
     | Raise e => r = Raise e /\ evs = [Log "正在检查 Qoder 运行状态..."]
     end.
Proof.
  unfold close_qoder. run_monad.
  destruct (check_process_running (probes env (probed st)) "Qoder") as [[[] pids]|e];
    step_monad; intros [= <- <- <-];
    (split; [reflexivity|]); (split; [repeat constructor|]);
    (split; [reflexivity|]); try reflexivity; eexists _, _; reflexivity.
Qed.

(** ** Dialogs against deeds *)







(** X22. The scan of the process list passes over the entries whose
    inspection raises [NoSuchProcess] or [AccessDenied]: its result,
    answer or exception, is that of the scan of the list without them. *)
Theorem scan_skips_vanished_processes name procs :
  psutil_scan name procs
  = psutil_scan name (List.filter (fun p => negb (vanished p)) procs).
Proof.
  induction procs as [|p procs IH]; [reflexivity|].
  destruct p as [pid [pname|] | []]; cbn [psutil_scan List.filter vanished negb];
    try reflexivity; try exact IH.
  rewrite IH. reflexivity.
Qed.

(** ** The further properties at work on sample surroundings *)

Lemma probe_pid_list_witness :
  check_process_running idle_probe "Qoder" = Ok (false, [])
  /\ (false = false -> @nil string = [])
  /\ (false = true -> @nil string = [] -> system idle_probe = Windows).
Proof.
  split; [reflexivity|].
  apply (probe_pid_list idle_probe "Qoder" false []). reflexivity.
Defined.

Lemma probe_raises_only_from_scan_witness :
  check_process_running unreadable_name_env "Qoder" = Raise AttributeError
  /\ exists procs,
       psutil unreadable_name_env = PsutilProcs procs
       /\ psutil_scan "Qoder" procs = Raise AttributeError
       /\ AttributeError <> ImportError.
Proof.
  split; [reflexivity|].
  exact (proj2 (probe_raises_only_from_scan unreadable_name_env "Qoder" AttributeError
                  eq_refl)).
Defined.

Lemma probe_ignores_psutil_when_native_ran_witness :
  check_process_running (ProbeEnv Linux (fun _ => Ok (Completed 1 "")) PsutilMissing) "Qoder"
  = check_process_running
      (ProbeEnv Linux (fun _ => Ok (Completed 1 "")) (PsutilProcs [ProcInfo 7 (Some "Qoder")]))
      "Qoder".
Proof.
  apply (probe_ignores_psutil_when_native_ran Linux (fun _ => Ok (Completed 1 ""))).
  intros argv e. discriminate.
Defined.


Lemma raising_probe_aborts_operation_witness :
  check_process_running (probes raising_env 0) "Qoder" = Raise AttributeError
  /\ exists line,
       run FullReset raising_env sample_state
       = (Raise AttributeError, after_probe sample_state, [Log line]).
Proof.
  split; [reflexivity|].
  apply (raising_probe_aborts_operation FullReset raising_env sample_state AttributeError).
  reflexivity.
Defined.

Lemma operations_return_witness :
  exists st' evs, run DeepIdentityCleanup stubborn_env sample_state = (Ok tt, st', evs).
Proof.
  apply (operations_return DeepIdentityCleanup stubborn_env sample_state).
  intros n. eexists. reflexivity.
Defined.

Lemma mutation_requires_confirmation_witness :
  exists text,
    In (Question "确认深度清理" text true)
       (run DeepIdentityCleanup sample_env sample_state).2.
Proof.
  apply (mutation_requires_confirmation DeepIdentityCleanup _ sample_env sample_state
           _ _ _ eq_refl (run_triple _)).
  vm_compute. discriminate.
Defined.

Lemma standalone_reset_touches_one_file_witness :
  fs (run ResetTelemetry sample_env sample_state).1.2 !! machine_id_file
  = fs sample_state !! machine_id_file.
Proof.
  apply (proj2 (standalone_reset_touches_one_file ResetTelemetry storage_json_file
                  sample_env sample_state _ _ _ eq_refl (run_triple _))).
  discriminate.
Defined.

Lemma reset_telemetry_rejects_bad_file_witness :
  exists st' evs,
    reset_telemetry sample_env broken_state = (Ok tt, st', evs)
    /\ reports_failure (Ok tt) evs
    /\ mutations evs = []
    /\ fs st' = fs broken_state.
Proof.
  apply (reset_telemetry_rejects_bad_file sample_env broken_state (Text "{") []);
    [reflexivity | reflexivity | right; intros d; discriminate].
Defined.

Lemma full_reset_stops_after_machine_id_witness :
  (perform_full_reset true sample_env broken_state).1.1 = Raise JSONDecodeError
  /\ mutations (perform_full_reset true sample_env broken_state).2
     = [Written machine_id_file (Text (uuid_str (uuid_at sample_env 0)))].
Proof.
  pose proof (full_reset_stops_after_machine_id true sample_env broken_state
                (Text "abc") "{" (ex_intro _ Dir eq_refl) eq_refl eq_refl eq_refl eq_refl)
    as H.
  cbv zeta in H. rewrite H. split; reflexivity.
Defined.

Lemma full_reset_preserving_chat_spares_user_dir_witness :
  fs (perform_full_reset true sample_env sample_state).1.2 !! ["User"; "globalStorage"]
  = fs sample_state !! ["User"; "globalStorage"].
Proof.
  apply (full_reset_preserving_chat_spares_user_dir sample_env sample_state _ _ _
           ["User"; "globalStorage"] (run_triple _)).
  - eexists. reflexivity.
  - discriminate.
Defined.

Lemma deep_cleanup_frame_witness :
  fs (deep_identity_cleanup sample_env sample_state).1.2 !! machine_id_file
  = fs sample_state !! machine_id_file.
Proof.
  apply (deep_cleanup_frame sample_env sample_state _ _ _ machine_id_file (run_triple _)).
  left. reflexivity.
Defined.

Lemma chat_purge_gives_up_on_unlistable_workspace_witness :
  exists e,
    clear_chat_history sample_env unlistable_state
    = (Ok tt, unlistable_state, [Log ("   清除对话记录失败: " ++ exn_text e)]).
Proof.
  apply (chat_purge_gives_up_on_unlistable_workspace sample_env unlistable_state).
  left. exists (Text ""). reflexivity.
Defined.


Lemma no_data_dir_no_cleanup_witness :
  mutations (run FullReset sample_env empty_state).2 = []
  /\ fs (run FullReset sample_env empty_state).1.2 = fs empty_state
  /\ forall text, ~ In (MsgBox Information "完成" text) (run FullReset sample_env empty_state).2.
Proof.
  apply (no_data_dir_no_cleanup FullReset _ sample_env empty_state _ _ _
           eq_refl eq_refl (run_triple _)).
Defined.

Lemma close_request_only_looks_witness :
  fs (close_qoder busy_env sample_state).1.2 = fs sample_state
  /\ Forall is_log_or_box (close_qoder busy_env sample_state).2.
Proof.
  destruct (close_request_only_looks busy_env sample_state _ _ _ (run_triple _))
    as (Hfs & Hevs & _).
  split; [exact Hfs | exact Hevs].
Defined.


